(** * Task synchronisation: the REST resource and the React client

    A shallow embedding of the task application: the Spring controller
    [TaskController] (createTask, updateTask, deleteTask, getAllTasks) over
    its [TaskRepository], and the React client ([App] with addTask,
    toggleTask, deleteTask; [TaskForm.handleSubmit]; [TaskItem]; [TaskList]).

    Conventions.
    - Text (Java [String], JavaScript strings) is a sequence of UTF-16 code
      units, [list N].
    - Identifiers are [Z]: a Java [Long] on the server, a JSON number on the
      client.  No arithmetic other than taking the next identity value is done
      on them, so no wrap-around occurs in the code modelled here.
    - A JavaScript object is a finite map from property names to JSON values;
      a property that is absent reads as [undefined], i.e. [None]. *)

From stdpp Require Import gmap strings list fin_maps.
From Stdlib Require Import ZArith NArith Ascii.

Local Open Scope Z_scope.

(** ** Text *)

(** ASCII text as code units, for writing examples. *)
Definition utf16 (s : string) : list N :=
  N_of_ascii <$> String.list_ascii_of_string s.

(** * The server *)

Module Server.

(** The entity [Task]: a nullable [Long id], a nullable [String title], a
    primitive [boolean completed].  This is also what Jackson builds from a
    request body: a missing [id] or [title] is [null], a missing
    [completed] is [false]. *)
Record Task := mkTask {
  id : option Z;
  title : option (list N);
  completed : bool
}.

Definition setId (t : Task) (i : Z) : Task :=
  {| id := Some i; title := title t; completed := completed t |}.

(** One row of table [task], without its key. *)
Record Row := mkRow {
  row_title : option (list N);
  row_completed : bool
}.

Definition row_of (t : Task) : Row :=
  {| row_title := title t; row_completed := completed t |}.

Definition task_of (i : Z) (r : Row) : Task :=
  {| id := Some i; title := row_title r; completed := row_completed r |}.

(** The table: rows keyed by [id], and the next value of the identity
    column ([GenerationType.IDENTITY]); values already handed out are never
    handed out again. *)
Record Database := mkDatabase {
  rows : gmap Z Row;
  identity : Z
}.

Definition empty_db : Database := {| rows := ∅; identity := 1 |}.

(** Every key was produced by the identity column, which starts at 1. *)
Definition wf (db : Database) : Prop :=
  0 < identity db ∧ ∀ i, is_Some (rows db !! i) → 0 < i < identity db.

(** What a repository call can throw. *)
Inductive Exn :=
| ObjectOptimisticLockingFailure.

(** A handler method either returns a value or lets an exception escape. *)
Inductive Reply (A : Type) :=
| Returned (a : A)
| Thrown (e : Exn).
Arguments Returned {A} a.
Arguments Thrown {A} e.

(** The status Spring MVC answers with: 200 for a returned value, 500 for
    an exception no handler catches (the controller declares none). *)
Definition status {A} (r : Reply A) : Z :=
  match r with
  | Returned _ => 200
  | Thrown _ => 500
  end.

(** The spec's error taxonomy, read off the response (spec section 6). *)
Definition ValidationError {A} (r : Reply A) : Prop := 400 ≤ status r < 500.
Definition NotFoundError {A} (r : Reply A) : Prop := status r = 404.

(** ** TaskRepository *)
Module TaskRepository.

(** Modelled from the spec: [TaskRepository extends JpaRepository<Task,
    Long>] has no body in the repository (Spring Data generates it); the
    spec describes the collaborator as one record per Task keyed by [id],
    consumed through save / find / delete.

    [save] follows [SimpleJpaRepository.save]: an entity whose [id] is
    [null] is new and is inserted under the next identity value; an entity
    that carries an [id] is a detached instance and is merged into the row
    with that key.  Merging a detached instance whose generated [id] has
    no row is refused by the persistence provider of the declared stack
    (build.gradle: Spring Boot 3.5.6, i.e. Hibernate ORM 6.6) with an
    optimistic-locking failure; the transaction rolls back. *)
Definition save (db : Database) (t : Task) : Database * Reply Task :=
  match id t with
  | None =>
      let i := identity db in
      ({| rows := <[i := row_of t]> (rows db); identity := i + 1 |},
       Returned (setId t i))
  | Some i =>
      match rows db !! i with
      | Some _ =>
          ({| rows := <[i := row_of t]> (rows db);
              identity := identity db |},
           Returned t)
      | None => (db, Thrown ObjectOptimisticLockingFailure)
      end
  end.

(** Modelled from the spec: [findAll] returns every record, in no
    particular order. *)
Definition findAll (db : Database) : list Task :=
  (λ kv, task_of kv.1 kv.2) <$> map_to_list (rows db).

(** Modelled from the spec: [deleteById] removes the record if present;
    an absent [id] is not an error (Spring Data JPA 3:
    [findById(id).ifPresent(this::delete)]). *)
Definition deleteById (db : Database) (i : Z) : Database * Reply unit :=
  ({| rows := delete i (rows db); identity := identity db |},
   Returned tt).

End TaskRepository.

(** ** TaskController *)
Module TaskController.

(** [@GetMapping]: [return repository.findAll();] *)
Definition getAllTasks (db : Database) : Database * Reply (list Task) :=
  (db, Returned (TaskRepository.findAll db)).

(** [@PostMapping]: [return repository.save(task);] *)
Definition createTask (db : Database) (task : Task)
  : Database * Reply Task :=
  TaskRepository.save db task.

(** [@PutMapping("/{id}")]: [task.setId(id); return repository.save(task);] *)
Definition updateTask (db : Database) (id : Z) (task : Task)
  : Database * Reply Task :=
  let task := setId task id in
  TaskRepository.save db task.

(** [@DeleteMapping("/{id}")]: [repository.deleteById(id);] *)
Definition deleteTask (db : Database) (id : Z) : Database * Reply unit :=
  TaskRepository.deleteById db id.

End TaskController.

End Server.


(** * JavaScript values *)

Module Js.

(** A JSON value as [res.json()] delivers it.  Numbers are the integers the
    server sends for a [Long]; nested objects and arrays do not occur in the
    bodies exchanged here (a Task, or Spring's error object). *)
Inductive value :=
| Null
| Bool (b : bool)
| Number (n : Z)
| Str (s : list N).

#[global] Instance value_eq_dec : EqDecision value.
Proof. solve_decision. Defined.

(** [ToBoolean] of a property read: [undefined], [null], [false], [0] and
    the empty string are falsy. *)
Definition truthy (v : option value) : bool :=
  match v with
  | None => false
  | Some Null => false
  | Some (Bool b) => b
  | Some (Number n) => negb (n =? 0)
  | Some (Str s) => negb (bool_decide (s = []))
  end.

(** [a === b] for a property read against a value. *)
Definition strict_eq (a : option value) (b : value) : bool :=
  bool_decide (a = Some b).

(** ECMAScript [WhiteSpace] and [LineTerminator] code points, the ones
    [String.prototype.trim] strips. *)
Definition is_space (c : N) : bool :=
  bool_decide (c ∈ [9; 10; 11; 12; 13; 32; 160; 5760; 8232; 8233; 8239; 8287;
                    12288; 65279]%N)
  || ((8192 <=? c) && (c <=? 8202))%N.

Fixpoint trimStart (s : list N) : list N :=
  match s with
  | [] => []
  | c :: s' => if is_space c then trimStart s' else s
  end.

Definition trimEnd (s : list N) : list N := reverse (trimStart (reverse s)).

Definition trim (s : list N) : list N := trimEnd (trimStart s).

(** Whitespace-only text, the empty text included. *)
Definition blank (s : list N) : Prop := Forall (λ c, is_space c = true) s.

#[global] Instance blank_dec s : Decision (blank s).
Proof. unfold blank. apply _. Defined.

(** [!s] for a string: only the empty string is falsy. *)
Definition not_string (s : list N) : bool := bool_decide (s = []).

End Js.

(** * The client *)

Module Client.

Import Js.

(** A task as the client holds it: the object parsed from a response, or the
    draft built by the form.  [types/Task.ts] declares [id?: number],
    [title: string], [completed: boolean]; nothing checks that shape at run
    time. *)
Abbreviation Task := (gmap string value).

(** ** Promises *)

Inductive Rejection :=
| TypeError    (* [fetch] could not reach the server *)
| SyntaxError. (* [res.json()] could not parse the body *)

(** A settled promise. *)
Inductive Promise (A : Type) :=
| Fulfilled (a : A)
| Rejected (e : Rejection).
Arguments Fulfilled {A} a.
Arguments Rejected {A} e.

(** [p.then(f)], with no rejection handler: a rejection passes through. *)
Definition then_ {A B} (p : Promise A) (f : A → Promise B) : Promise B :=
  match p with
  | Fulfilled a => f a
  | Rejected e => Rejected e
  end.

Notation "p '.then' f" := (then_ p f) (at level 50, left associativity).

(** ** fetch *)

Inductive Method := GET | POST | PUT | DELETE.

(** A request to [API_URL] ([path = None]) or to [`${API_URL}/${id}`]. *)
Record Request := mkRequest {
  method : Method;
  path : option value;
  body : option Task
}.

(** A response: its status, and its body as JSON if it parses as such. *)
Record Response := mkResponse {
  status : Z;
  parsed : option Task
}.

(** [res.ok] *)
Definition ok (res : Response) : bool :=
  (200 <=? status res) && (status res <=? 299).

(** [res.json()] *)
Definition json (res : Response) : Promise Task :=
  match parsed res with
  | Some v => Fulfilled v
  | None => Rejected SyntaxError
  end.

(** What [fetch] settles to: it rejects only when no response arrives, and
    fulfils with the response whatever its status. *)
Definition fetch (outcome : option Response) : Promise Response :=
  match outcome with
  | Some res => Fulfilled res
  | None => Rejected TypeError
  end.

(** A request in flight together with the promise chain hung on it.  The
    chain ends in a call of [setTasks]; its argument is what the promise
    carries.  No chain has a rejection handler. *)
Record Pending := mkPending {
  request : Request;
  chain : option Response → Promise (list Task)
}.

(** ** TaskForm *)
Module TaskForm.

(** [handleSubmit]: the call of [onAdd], if any, and the next value of the
    input field. *)
Definition handleSubmit (title : list N) : option Task * list N :=
  if not_string (trim title) then (None, title)
  else (Some {[ "title" := Str title; "completed" := Bool false ]}, []).

End TaskForm.

(** ** TaskItem *)
Module TaskItem.

(** The checkbox's [onChange]: [task.id && onToggle(task.id)].  The result
    is the argument [onToggle] is called with, if it is called. *)
Definition onChange (task : Task) : option value :=
  if truthy (task !! "id") then task !! "id" else None.

(** The button's [onClick]: [task.id && onDelete(task.id)]. *)
Definition onClick (task : Task) : option value :=
  if truthy (task !! "id") then task !! "id" else None.

End TaskItem.

(** ** TaskList *)
Module TaskList.

(** One [TaskItem] per task, in order; the handlers are handed down as they
    are.  [onChange tasks i] is the checkbox of the [i]-th item. *)
Definition onChange (tasks : list Task) (i : nat) : option value :=
  tasks !! i ≫= TaskItem.onChange.

Definition onClick (tasks : list Task) (i : nat) : option value :=
  tasks !! i ≫= TaskItem.onClick.

End TaskList.

(** ** App *)
Module App.

(** [tasks.find((t) => t.id === id)] *)
Definition find_by_id (tasks : list Task) (id : value) : option Task :=
  snd <$> list_find (λ t, strict_eq (t !! "id") id = true) tasks.

Definition addTask (tasks : list Task) (task : Task) : Pending :=
  {| request := {| method := POST; path := None; body := Some task |};
     chain := λ outcome,
       fetch outcome
         .then (λ res, json res)
         .then (λ newTask, Fulfilled (tasks ++ [newTask])) |}.

(** [id] is declared a [number]; at run time it is what [TaskItem] read
    from [task.id]. *)
Definition toggleTask (tasks : list Task) (id : value) : option Pending :=
  match find_by_id tasks id with
  | None => None
  | Some task =>
      Some
        {| request :=
             {| method := PUT; path := Some id;
                body := Some (<["completed" :=
                                 Bool (negb (truthy (task !! "completed")))]>
                                task) |};
           chain := λ outcome,
             fetch outcome
               .then (λ res, json res)
               .then (λ updatedTask,
                        Fulfilled
                          ((λ t, if strict_eq (t !! "id") id
                                 then updatedTask else t) <$> tasks)) |}
  end.

Definition deleteTask (tasks : list Task) (id : value) : Pending :=
  {| request := {| method := DELETE; path := Some id; body := None |};
     chain := λ outcome,
       fetch outcome
         .then (λ _, Fulfilled
                       (filter (λ t, strict_eq (t !! "id") id = false)
                               tasks)) |}.

(** The component's state: [tasks], and the requests not yet settled.  Each
    pending chain holds the [tasks] of the render that issued it, and hands
    [setTasks] a list computed from those.  The list fetched at start-up
    ([useEffect]) is the [tasks] of the state the events run from. *)
Record State := mkState {
  tasks : list Task;
  in_flight : list Pending
}.

(** Before the start-up fetch has resolved. *)
Definition initial : State := {| tasks := []; in_flight := [] |}.

Inductive Event :=
| Submit (title : list N)       (* the form is submitted *)
| Change (i : nat)              (* the checkbox of item [i] *)
| Click (i : nat)               (* the delete button of item [i] *)
| Settle (k : nat) (outcome : option Response).
                                (* request [k] in flight settles *)

Definition issue (st : State) (p : option Pending) : State :=
  {| tasks := tasks st; in_flight := in_flight st ++ option_list p |}.

(** [setTasks] with what a chain delivered; a rejected chain calls nothing. *)
Definition settled (current : list Task) (p : Promise (list Task))
  : list Task :=
  match p with
  | Fulfilled next => next
  | Rejected _ => current
  end.

Definition step (st : State) (ev : Event) : State :=
  match ev with
  | Submit title =>
      issue st (addTask (tasks st) <$> (TaskForm.handleSubmit title).1)
  | Change i =>
      issue st (TaskList.onChange (tasks st) i ≫= toggleTask (tasks st))
  | Click i =>
      issue st (deleteTask (tasks st) <$> TaskList.onClick (tasks st) i)
  | Settle k outcome =>
      match in_flight st !! k with
      | None => st
      | Some p =>
          {| tasks := settled (tasks st) (chain p outcome);
             in_flight := delete k (in_flight st) |}
      end
  end.

Definition run (st : State) (evs : list Event) : State :=
  foldl step st evs.

(** The requests an event adds to those in flight. *)
Definition issued (st : State) (ev : Event) : list Pending :=
  drop (length (in_flight st)) (in_flight (step st ev)).

End App.

End Client.

(** * The resource, request by request *)

Module Resource.

Import Server.

(** The four mappings of [TaskController] under [/api/tasks]. *)
Inductive Request :=
| GetTasks                          (* GET /api/tasks *)
| PostTask (body : Task)            (* POST /api/tasks *)
| PutTask (id : Z) (body : Task)    (* PUT /api/tasks/{id} *)
| DeleteTask (id : Z).              (* DELETE /api/tasks/{id} *)

(** What a response carries. *)
Inductive Payload :=
| TaskArray (l : list Task)
| TaskObject (t : Task)
| NoContent.

Definition reply_map {A B} (f : A → B) (r : Reply A) : Reply B :=
  match r with
  | Returned a => Returned (f a)
  | Thrown e => Thrown e
  end.

(** One request = one handler call. *)
Definition dispatch (db : Database) (r : Request) : Database * Reply Payload :=
  match r with
  | GetTasks =>
      let out := TaskController.getAllTasks db in
      (out.1, reply_map TaskArray out.2)
  | PostTask body =>
      let out := TaskController.createTask db body in
      (out.1, reply_map TaskObject out.2)
  | PutTask i body =>
      let out := TaskController.updateTask db i body in
      (out.1, reply_map TaskObject out.2)
  | DeleteTask i =>
      let out := TaskController.deleteTask db i in
      (out.1, reply_map (λ _, NoContent) out.2)
  end.

(** The table after a run of requests. *)
Definition serve (db : Database) (rs : list Request) : Database :=
  foldl (λ db r, (dispatch db r).1) db rs.

(** The tables the application can be in. *)
Definition reachable (db : Database) : Prop :=
  ∃ rs, db = serve empty_db rs.

End Resource.

(** * The guide's service layers *)

(** ** Java text *)

Module Java.

(** [String.trim]: characters up to U+0020 are stripped from both ends. *)
Definition is_space (c : N) : bool := (c <=? 32)%N.

Fixpoint trimStart (s : list N) : list N :=
  match s with
  | [] => []
  | c :: s' => if is_space c then trimStart s' else s
  end.

Definition trim (s : list N) : list N :=
  reverse (trimStart (reverse (trimStart s))).

(** [String.isEmpty] *)
Definition isEmpty (s : list N) : bool := bool_decide (s = []).

(** Text made of characters up to U+0020 only, the empty text included. *)
Definition blank (s : list N) : Prop := Forall (λ c, is_space c = true) s.

#[global] Instance blank_dec s : Decision (blank s).
Proof. unfold blank. apply _. Defined.

(** A title that is [null] or blank. *)
Definition refused (title : option (list N)) : Prop :=
  match title with
  | None => True
  | Some s => blank s
  end.

End Java.

(** ** The layered architecture: [service/TaskService.java] *)

Module Layered.

Import Server.

(** What the service can throw. *)
Inductive Exn :=
| IllegalArgumentException_TitleEmpty
    (* [new IllegalArgumentException("Title cannot be empty")] *)
| RuntimeException_TaskNotFound (id : Z)
    (* [new RuntimeException("Task not found: " + id)] *)
| FromRepository (e : Server.Exn).

Inductive Outcome (A : Type) :=
| Returns (a : A)
| Throws (e : Exn).
Arguments Returns {A} a.
Arguments Throws {A} e.

Definition of_reply {A} (r : Reply A) : Outcome A :=
  match r with
  | Returned a => Returns a
  | Thrown e => Throws (FromRepository e)
  end.

(** Modelled from the spec: [findById] of the repository returns the record
    stored under [id], if there is one. *)
Definition findById (db : Database) (i : Z) : option Task :=
  task_of i <$> rows db !! i.

Module TaskService.

Definition getAllTasks (db : Database) : list Task :=
  TaskRepository.findAll db.

(** [if (task.getTitle() == null || task.getTitle().trim().isEmpty()) throw
    ...; return repository.save(task);] *)
Definition createTask (db : Database) (task : Task)
  : Database * Outcome Task :=
  match title task with
  | None => (db, Throws IllegalArgumentException_TitleEmpty)
  | Some s =>
      if Java.isEmpty (Java.trim s)
      then (db, Throws IllegalArgumentException_TitleEmpty)
      else
        let out := TaskRepository.save db task in
        (out.1, of_reply out.2)
  end.

(** [repository.findById(id).map(existing -> { existing.setTitle(...);
    existing.setCompleted(...); return repository.save(existing); })
    .orElseThrow(...)] *)
Definition updateTask (db : Database) (id : Z) (task : Task)
  : Database * Outcome Task :=
  match findById db id with
  | Some existing =>
      let existing :=
        {| Server.id := Server.id existing;
           title := title task;
           completed := completed task |} in
      let out := TaskRepository.save db existing in
      (out.1, of_reply out.2)
  | None => (db, Throws (RuntimeException_TaskNotFound id))
  end.

Definition deleteTask (db : Database) (id : Z) : Database * Outcome unit :=
  let out := TaskRepository.deleteById db id in
  (out.1, of_reply out.2).

End TaskService.

End Layered.

(** ** The hexagonal architecture: [domain/] and [adapter/] *)

Module Hexagonal.

(** [domain/model/Task.java] *)
Record Task := mkTask {
  id : option Z;
  title : option (list N);
  completed : bool
}.

Inductive Exn :=
| IllegalStateException_AlreadyCompleted
    (* [new IllegalStateException("Task is already completed")] *)
| IllegalArgumentException_TitleEmpty
    (* [new IllegalArgumentException("Title cannot be empty")] *)
| RuntimeException_TaskNotFound
    (* [new RuntimeException("Task not found")] *)
| FromRepository (e : Server.Exn).

Inductive Outcome (A : Type) :=
| Returns (a : A)
| Throws (e : Exn).
Arguments Returns {A} a.
Arguments Throws {A} e.

(** [complete()]: the task after the call, or the exception. *)
Definition complete (t : Task) : Outcome Task :=
  if completed t then Throws IllegalStateException_AlreadyCompleted
  else Returns {| id := id t; title := title t; completed := true |}.

(** [adapter/out/persistence/TaskPersistenceAdapter.java]; [TaskEntity] has
    the fields and the identity column of the entity of the application. *)
Module TaskPersistenceAdapter.

Definition toEntity (task : Task) : Server.Task :=
  {| Server.id := id task;
     Server.title := title task;
     Server.completed := completed task |}.

Definition toDomain (entity : Server.Task) : Task :=
  {| id := Server.id entity;
     title := Server.title entity;
     completed := Server.completed entity |}.

Definition save (db : Server.Database) (task : Task)
  : Server.Database * Outcome Task :=
  let entity := toEntity task in
  let out := Server.TaskRepository.save db entity in
  (out.1,
   match out.2 with
   | Server.Returned saved => Returns (toDomain saved)
   | Server.Thrown e => Throws (FromRepository e)
   end).

Definition findAll (db : Server.Database) : list Task :=
  toDomain <$> Server.TaskRepository.findAll db.

Definition findById (db : Server.Database) (i : Z) : option Task :=
  toDomain <$> Layered.findById db i.

Definition deleteById (db : Server.Database) (i : Z) : Server.Database :=
  (Server.TaskRepository.deleteById db i).1.

End TaskPersistenceAdapter.

(** [domain/service/TaskService.java] *)
Module TaskService.

Definition createTask (db : Server.Database) (title : option (list N))
  : Server.Database * Outcome Task :=
  match title with
  | None => (db, Throws IllegalArgumentException_TitleEmpty)
  | Some s =>
      if Java.isEmpty (Java.trim s)
      then (db, Throws IllegalArgumentException_TitleEmpty)
      else
        let task := {| id := None; title := title; completed := false |} in
        TaskPersistenceAdapter.save db task
  end.

Definition getAllTasks (db : Server.Database) : list Task :=
  TaskPersistenceAdapter.findAll db.

Definition updateTask (db : Server.Database) (id : Z)
    (title : option (list N)) (completed : bool)
  : Server.Database * Outcome Task :=
  match TaskPersistenceAdapter.findById db id with
  | None => (db, Throws RuntimeException_TaskNotFound)
  | Some task =>
      let updated :=
        {| Hexagonal.id := Some id; Hexagonal.title := title;
           Hexagonal.completed := completed |} in
      TaskPersistenceAdapter.save db updated
  end.

Definition deleteTask (db : Server.Database) (id : Z) : Server.Database :=
  TaskPersistenceAdapter.deleteById db id.

End TaskService.

End Hexagonal.

(** * The guide's client variants *)

(** ** Container/Presentational: [services/taskService.ts], [hooks/useTasks.ts] *)

Module Hooks.

Import Js.
Import Client.

(** What an [await] can throw: an error raised by the platform ([fetch],
    [response.json()]), or [new Error(message)]. *)
Inductive Thrown :=
| Native (e : Rejection)
| Error (message : string).

(** A settled [async] function. *)
Inductive Async (A : Type) :=
| Resolves (a : A)
| Rejects (err : Thrown).
Arguments Resolves {A} a.
Arguments Rejects {A} err.

Module taskService.

Definition create_request (task : Task) : Request :=
  {| method := POST; path := None; body := Some task |}.

(** [create]: [if (!response.ok) throw new Error("Failed to create task");
    return response.json();] *)
Definition create (outcome : option Response) : Async Task :=
  match fetch outcome with
  | Rejected e => Rejects (Native e)
  | Fulfilled response =>
      if negb (ok response) then Rejects (Error "Failed to create task")
      else match json response with
           | Fulfilled data => Resolves data
           | Rejected e => Rejects (Native e)
           end
  end.

Definition update_request (id : value) (task : Task) : Request :=
  {| method := PUT; path := Some id; body := Some task |}.

Definition update (outcome : option Response) : Async Task :=
  match fetch outcome with
  | Rejected e => Rejects (Native e)
  | Fulfilled response =>
      if negb (ok response) then Rejects (Error "Failed to update task")
      else match json response with
           | Fulfilled data => Resolves data
           | Rejected e => Rejects (Native e)
           end
  end.

Definition delete_request (id : value) : Request :=
  {| method := DELETE; path := Some id; body := None |}.

(** [delete]: the body of the response is not read. *)
Definition delete (outcome : option Response) : Async unit :=
  match fetch outcome with
  | Rejected e => Rejects (Native e)
  | Fulfilled response =>
      if negb (ok response) then Rejects (Error "Failed to delete task")
      else Resolves tt
  end.

End taskService.

(** The state of [useTasks]; [error] is [null] or a message. *)
Record State := mkState {
  tasks : list Task;
  loading : bool;
  error : option string
}.

Definition setTasks (next : list Task) (st : State) : State :=
  {| tasks := next; loading := loading st; error := error st |}.

Definition setError (message : option string) (st : State) : State :=
  {| tasks := tasks st; loading := loading st; error := message |}.

(** A call in flight: the request, and what runs when it settles - the
    change of state and how the [async] handler itself settles. *)
Record Call := mkCall {
  request : Request;
  resume : option Response → State → State * Async unit
}.

Section useTasks.

(** The [message] the platform gives its own errors. *)
Variable native_message : Rejection → string.

(** [err instanceof Error ? err.message : fallback]: everything thrown here
    is an [Error]. *)
Definition message_of (err : Thrown) : string :=
  match err with
  | Native e => native_message e
  | Error message => message
  end.

Definition addTask (tasks : list Task) (task : Task) : Call :=
  {| request := taskService.create_request task;
     resume := λ outcome st,
       match taskService.create outcome with
       | Resolves newTask => (setTasks (tasks ++ [newTask]) st, Resolves tt)
       | Rejects err => (setError (Some (message_of err)) st, Rejects err)
       end |}.

Definition toggleTask (tasks : list Task) (id : value) : option Call :=
  match App.find_by_id tasks id with
  | None => None
  | Some task =>
      Some
        {| request :=
             taskService.update_request id
               (<["completed" :=
                    Bool (negb (truthy (task !! "completed")))]> task);
           resume := λ outcome st,
             match taskService.update outcome with
             | Resolves updated =>
                 (setTasks ((λ t, if strict_eq (t !! "id") id
                                  then updated else t) <$> tasks) st,
                  Resolves tt)
             | Rejects err =>
                 (setError (Some (message_of err)) st, Resolves tt)
             end |}
  end.

Definition deleteTask (tasks : list Task) (id : value) : Call :=
  {| request := taskService.delete_request id;
     resume := λ outcome st,
       match taskService.delete outcome with
       | Resolves _ =>
           (setTasks (filter (λ t, strict_eq (t !! "id") id = false) tasks)
              st,
            Resolves tt)
       | Rejects err => (setError (Some (message_of err)) st, Resolves tt)
       end |}.

End useTasks.

(** A request that went through: a response with an ok status whose body
    parses. *)
Definition went_through (outcome : option Response) : Prop :=
  ∃ res data, outcome = Some res ∧ ok res = true ∧ parsed res = Some data.

(** [after] is [st] once a handler of [useTasks], called in a render that
    had [tasks], has settled. *)
Definition settled_from (native_message : Rejection → string)
    (tasks : list Task) (st after : State) : Prop :=
  (∃ task outcome,
     after = (resume (addTask native_message tasks task) outcome st).1)
  ∨ (∃ id call outcome,
       toggleTask native_message tasks id = Some call
       ∧ after = (resume call outcome st).1)
  ∨ (∃ id outcome,
       after = (resume (deleteTask native_message tasks id) outcome st).1).

(** [TaskPageContainer]: what is on screen. *)
Inductive View :=
| LoadingScreen
| ErrorScreen (message : string)
| Page (tasks : list Task).

(** [if (loading) ...; if (error) ...; return the page]: an empty message is
    falsy. *)
Definition view (st : State) : View :=
  if loading st then LoadingScreen
  else match error st with
       | Some message =>
           if bool_decide (message = "") then Page (tasks st)
           else ErrorScreen message
       | None => Page (tasks st)
       end.

End Hooks.

(** ** Flux/Redux: [store/tasks/taskSlice.ts] *)

Module TaskSlice.

Import Js.

Record TaskState := mkTaskState {
  tasks : list (gmap string value);
  loading : bool;
  error : option string
}.

Definition initialState : TaskState :=
  {| tasks := []; loading := false; error := None |}.

Definition setTasks (state : TaskState) (payload : list (gmap string value))
  : TaskState :=
  {| tasks := payload; loading := loading state; error := error state |}.

(** [state.tasks.push(action.payload)] *)
Definition addTask (state : TaskState) (payload : gmap string value)
  : TaskState :=
  {| tasks := tasks state ++ [payload];
     loading := loading state; error := error state |}.

(** [findIndex((t) => t.id === action.payload.id)]: both sides are property
    reads, and two absent [id]s are equal. *)
Definition findIndex (l : list (gmap string value))
    (payload : gmap string value) : option nat :=
  fst <$> list_find (λ t, t !! "id" = payload !! "id") l.

(** [if (index !== -1) state.tasks[index] = action.payload] *)
Definition updateTask (state : TaskState) (payload : gmap string value)
  : TaskState :=
  match findIndex (tasks state) payload with
  | Some index =>
      {| tasks := <[index := payload]> (tasks state);
         loading := loading state; error := error state |}
  | None => state
  end.

(** [state.tasks.filter((t) => t.id !== action.payload)] *)
Definition deleteTask (state : TaskState) (payload : value) : TaskState :=
  {| tasks := filter (λ t, t !! "id" ≠ Some payload) (tasks state);
     loading := loading state; error := error state |}.

Definition setLoading (state : TaskState) (payload : bool) : TaskState :=
  {| tasks := tasks state; loading := payload; error := error state |}.

Definition setError (state : TaskState) (payload : option string)
  : TaskState :=
  {| tasks := tasks state; loading := loading state; error := payload |}.

End TaskSlice.

(** * Sample data *)

Module Sample.

Import Js.

(** Request bodies for the server. *)
Definition write_report : Server.Task :=
  Server.mkTask None (Some (utf16 "write report")) false.

Definition empty_title : Server.Task := Server.mkTask None (Some []) false.

Definition spaces_title : Server.Task :=
  Server.mkTask None (Some (utf16 "   ")) false.

Definition done_already : Server.Task :=
  Server.mkTask None (Some (utf16 "x")) true.

Definition x_task : Server.Task :=
  Server.mkTask None (Some (utf16 "x")) false.

(** A table holding one task, under key 1. *)
Definition one_row : Server.Database :=
  (Server.TaskController.createTask Server.empty_db write_report).1.

(** Tasks as the client holds them. *)
Definition buy_milk : gmap string value :=
  {[ "title" := Str (utf16 "buy milk"); "completed" := Bool false ]}.

Definition persisted (i : Z) (title : string) (completed : bool)
  : gmap string value :=
  {[ "id" := Number i; "title" := Str (utf16 title);
     "completed" := Bool completed ]}.

(** The body of Spring Boot's default error response. *)
Definition spring_error : gmap string value :=
  {[ "timestamp" := Str (utf16 "2025-10-01T09:00:00.000+00:00");
     "status" := Number 500;
     "error" := Str (utf16 "Internal Server Error");
     "path" := Str (utf16 "/api/tasks") ]}.

Definition error_500 : Client.Response :=
  {| Client.status := 500; Client.parsed := Some spring_error |}.

(** An error response whose body is not JSON. *)
Definition bad_gateway : Client.Response :=
  {| Client.status := 502; Client.parsed := None |}.

Definition ok_200 (t : gmap string value) : Client.Response :=
  {| Client.status := 200; Client.parsed := Some t |}.

End Sample.

(** * Properties of the server *)

Section ServerFacts.

Import Server.
Import Server.TaskRepository.
Import Server.TaskController.

Implicit Types (db : Database) (task t : Task) (i : Z).

(** ** The identity column stays ahead of the keys *)

Lemma wf_empty_db : wf empty_db.
Proof.
  split; [done|]. intros i [r Hr]. simpl in Hr. by rewrite lookup_empty in Hr.
Qed.

Lemma wf_identity_fresh db : wf db → rows db !! identity db = None.
Proof.
  intros [_ Hwf]. destruct (rows db !! identity db) as [r|] eqn:E; [|done].
  destruct (Hwf (identity db)) as [_ Hlt]; [by eexists | lia].
Qed.

Lemma save_wf db t : wf db → wf (save db t).1.
Proof.
  intros [Hpos Hwf]. unfold save.
  destruct (id t) as [i|]; [destruct (rows db !! i) as [r|] eqn:E|];
    simpl; try done; (split; simpl; [lia|]); intros j [r' Hj]; simpl in *.
  - destruct (decide (i = j)) as [->|Hne].
    + apply Hwf. by eexists.
    + rewrite lookup_insert_ne in Hj by done. apply Hwf. by eexists.
  - destruct (decide (identity db = j)) as [<-|Hne]; [lia|].
    rewrite lookup_insert_ne in Hj by done.
    destruct (Hwf j) as [? ?]; [by eexists | lia].
Qed.

Lemma deleteById_wf db i : wf db → wf (deleteById db i).1.
Proof.
  intros [Hpos Hwf]. split; [done|]. intros j [r Hj]; simpl in *.
  apply lookup_delete_Some in Hj as [_ Hj]. apply Hwf. by eexists.
Qed.

(** Every handler keeps the invariant. *)
Lemma createTask_wf db task : wf db → wf (createTask db task).1.
Proof. apply save_wf. Qed.

Lemma updateTask_wf db i task : wf db → wf (updateTask db i task).1.
Proof. apply save_wf. Qed.

Lemma deleteTask_wf db i : wf db → wf (deleteTask db i).1.
Proof. apply deleteById_wf. Qed.

(** ** save, case by case *)

Lemma save_new db t :
  id t = None →
  save db t =
    ({| rows := <[identity db := row_of t]> (rows db);
        identity := identity db + 1 |},
     Returned (setId t (identity db))).
Proof. intros E. unfold save. by rewrite E. Qed.

Lemma save_present db t i r :
  id t = Some i → rows db !! i = Some r →
  save db t =
    ({| rows := <[i := row_of t]> (rows db); identity := identity db |},
     Returned t).
Proof. intros E Hr. unfold save. by rewrite E, Hr. Qed.

Lemma save_absent db t i :
  id t = Some i → rows db !! i = None →
  save db t = (db, Thrown ObjectOptimisticLockingFailure).
Proof. intros E Hr. unfold save. by rewrite E, Hr. Qed.

(** A saved entity is returned with a key, and its row holds its fields. *)
Lemma save_Returned db t db' t' :
  save db t = (db', Returned t') →
  title t' = title t ∧ completed t' = completed t ∧
  ∃ i, id t' = Some i ∧ rows db' !! i = Some (row_of t) ∧
       (∀ j, j ≠ i → rows db' !! j = rows db !! j).
Proof.
  unfold save. intros H.
  destruct (id t) as [i|] eqn:E; [destruct (rows db !! i) as [r|] eqn:Hr|];
    simplify_eq; simpl; (split; [done|split; [done|]]).
  - exists i. split; [done|]. split; [apply lookup_insert_eq|].
    intros j Hj. by apply lookup_insert_ne.
  - exists (identity db). split; [done|]. split; [apply lookup_insert_eq|].
    intros j Hj. by apply lookup_insert_ne.
Qed.

(** No handler ever answers with a 4xx status. *)
Lemma status_200_or_500 {A} (r : Reply A) : status r = 200 ∨ status r = 500.
Proof. destruct r; [by left | by right]. Qed.

Lemma never_ValidationError {A} (r : Reply A) : ¬ ValidationError r.
Proof. unfold ValidationError. destruct (status_200_or_500 r); lia. Qed.

Lemma never_NotFoundError {A} (r : Reply A) : ¬ NotFoundError r.
Proof. unfold NotFoundError. destruct (status_200_or_500 r); lia. Qed.

(** [findAll] lists exactly the rows. *)
Lemma elem_of_findAll db t :
  t ∈ findAll db ↔ ∃ i r, rows db !! i = Some r ∧ t = task_of i r.
Proof.
  unfold findAll. rewrite list_elem_of_fmap. split.
  - intros [[i r] [-> Hin]]. apply elem_of_map_to_list in Hin. eauto.
  - intros (i & r & Hr & ->). exists (i, r). split; [done|].
    by apply elem_of_map_to_list.
Qed.

End ServerFacts.

(** * Properties of the client *)

Section ClientFacts.

Import Js.
Import Client.
Import Client.App.

Implicit Types (tasks current : list (gmap string value)).
Implicit Types (task t : gmap string value) (id : value).
Implicit Types (s title : list N).

(** ** trim *)

Lemma trimStart_nil_iff s : trimStart s = [] ↔ blank s.
Proof.
  unfold blank. induction s as [|c s IH]; simpl.
  - split; [constructor | done].
  - destruct (is_space c) eqn:E.
    + rewrite IH. split; [by constructor | by inversion 1].
    + split; [done | inversion 1; congruence].
Qed.

(** What [trimStart] leaves is empty or starts with a character that is not
    whitespace. *)
Lemma trimStart_blank_iff s : blank (trimStart s) ↔ blank s.
Proof.
  induction s as [|c s IH]; simpl; [done|].
  destruct (is_space c) eqn:E; [|done].
  rewrite IH. unfold blank. split; [by constructor | by inversion 1].
Qed.

Lemma trim_nil_iff s : trim s = [] ↔ blank s.
Proof.
  unfold trim, trimEnd.
  rewrite <- (trimStart_blank_iff s).
  assert (blank (trimStart s) ↔ blank (reverse (trimStart s))) as ->
    by (unfold blank; by rewrite Forall_reverse).
  rewrite <- trimStart_nil_iff.
  split; intros H.
  - apply (f_equal reverse) in H. by rewrite reverse_involutive in H.
  - by rewrite H.
Qed.

Lemma not_string_trim title : not_string (trim title) = true ↔ blank title.
Proof. unfold not_string. rewrite bool_decide_eq_true. apply trim_nil_iff. Qed.

(** ** Promise chains *)

Lemma then_assoc {A B C} (p : Promise A) (f : A → Promise B)
    (g : B → Promise C) :
  p .then f .then g = p .then (λ a, f a .then g).
Proof. by destruct p. Qed.

Lemma then_Rejected {A B} e (f : A → Promise B) :
  Rejected e .then f = Rejected e.
Proof. done. Qed.

(** A rejected chain calls nothing: the list stays as it is. *)
Lemma settled_Rejected current e : settled current (Rejected e) = current.
Proof. done. Qed.

(** ** find *)

Lemma find_by_id_Some tasks id task :
  find_by_id tasks id = Some task → task ∈ tasks ∧ task !! "id" = Some id.
Proof.
  unfold find_by_id. intros H.
  destruct (list_find _ tasks) as [[i t]|] eqn:E; simplify_eq/=.
  apply list_find_Some in E as (Hi & Heq & _).
  split; [by eapply list_elem_of_lookup_2|].
  unfold strict_eq in Heq. by apply bool_decide_eq_true in Heq.
Qed.

Lemma find_by_id_None tasks id :
  find_by_id tasks id = None ↔ ∀ t, t ∈ tasks → t !! "id" ≠ Some id.
Proof.
  unfold find_by_id. split.
  - intros H t Hin Hid.
    destruct (list_find _ tasks) as [[i t']|] eqn:E; [done|].
    apply list_find_None in E. rewrite Forall_forall in E.
    apply (E t Hin). unfold strict_eq. by apply bool_decide_eq_true.
  - intros H. destruct (list_find _ tasks) as [[i t']|] eqn:E; [|done].
    apply list_find_Some in E as (Hi & Heq & _).
    exfalso. apply (H t'); [by eapply list_elem_of_lookup_2|].
    unfold strict_eq in Heq. by apply bool_decide_eq_true in Heq.
Qed.

Lemma find_by_id_present tasks id :
  (∃ t, t ∈ tasks ∧ t !! "id" = Some id) →
  ∃ task, find_by_id tasks id = Some task.
Proof.
  intros (t & Hin & Hid).
  destruct (find_by_id tasks id) as [task|] eqn:E; [by eexists|].
  exfalso. by eapply find_by_id_None.
Qed.

(** ** Events that issue nothing *)

Lemma issue_None st : issue st None = st.
Proof. destruct st. unfold issue; simpl. by rewrite app_nil_r. Qed.

Lemma issued_issue st ev p :
  step st ev = issue st p → issued st ev = option_list p.
Proof.
  intros H. unfold issued. rewrite H. simpl.
  by rewrite drop_app_length.
Qed.

(** Only a settling request changes the list: no event applies a change
    before the answer is in. *)
Lemma step_tasks st ev :
  (∀ k outcome, ev ≠ Settle k outcome) → tasks (step st ev) = tasks st.
Proof. intros H. destruct ev; simpl; try done. by destruct (H k outcome). Qed.

End ClientFacts.

(** * The task store: create, replace, delete *)

Section TaskStore.

Import Server.
Import Server.TaskRepository.
Import Server.TaskController.
Import Sample.

Implicit Types (db : Database) (task t : Task) (i : Z).

(** ** Scenarios of the spec, run on the model *)

Example scenario_A :
  createTask empty_db write_report =
    (one_row, Returned (mkTask (Some 1) (Some (utf16 "write report")) false))
  ∧ findAll one_row = [mkTask (Some 1) (Some (utf16 "write report")) false].
Proof. split; reflexivity. Qed.

Example scenario_B :
  let body := mkTask None (Some (utf16 "write report")) true in
  (updateTask one_row 1 body).2 =
    Returned (mkTask (Some 1) (Some (utf16 "write report")) true)
  ∧ findAll (updateTask one_row 1 body).1 =
      [mkTask (Some 1) (Some (utf16 "write report")) true].
Proof. split; reflexivity. Qed.

Example scenario_C :
  let db1 := (deleteTask one_row 1).1 in
  (deleteTask one_row 1).2 = Returned tt ∧ findAll db1 = []
  ∧ (deleteTask db1 1).2 = Returned tt.
Proof. repeat split; reflexivity. Qed.

(** An identity value is not handed out again after its row is deleted. *)
Example identity_not_reused :
  let db1 := (deleteTask one_row 1).1 in
  (createTask db1 write_report).2 =
    Returned (mkTask (Some 2) (Some (utf16 "write report")) false).
Proof. reflexivity. Qed.

(** ** create *)

(** C1, as stated, fails: [create("")] and [create("   ")] are answered with
    200, not with a validation error, and each leaves one more record in the
    table. *)
Lemma createTask_blank_title_is_stored :
  (status (createTask empty_db empty_title).2 = 200
   ∧ ¬ ValidationError (createTask empty_db empty_title).2
   ∧ size (rows (createTask empty_db empty_title).1) = 1%nat)
  ∧ (status (createTask empty_db spaces_title).2 = 200
     ∧ ¬ ValidationError (createTask empty_db spaces_title).2
     ∧ size (rows (createTask empty_db spaces_title).1) = 1%nat)
  ∧ size (rows empty_db) = 0%nat.
Proof.
  repeat split; try reflexivity; apply never_ValidationError.
Qed.

(** C1 (amended): a create is never rejected for its title.  For every
    request body without an [id] - whatever its title, the empty and the
    whitespace-only ones included - [createTask] hands the body to
    [repository.save] unvalidated: the answer is 200 with the task under a
    fresh [id], no validation error is produced, the record is in the table
    afterwards and the table has grown by one. *)
Theorem createTask_stores_any_title db task :
  wf db → id task = None →
  (createTask db task).2 = Returned (setId task (identity db))
  ∧ status (createTask db task).2 = 200
  ∧ ¬ ValidationError (createTask db task).2
  ∧ rows db !! identity db = None
  ∧ rows (createTask db task).1 !! identity db = Some (row_of task)
  ∧ size (rows (createTask db task).1) = S (size (rows db)).
Proof.
  intros Hwf Hid. unfold createTask. rewrite (save_new _ _ Hid). simpl.
  pose proof (wf_identity_fresh db Hwf) as Hfresh.
  repeat split; try done.
  - unfold ValidationError; simpl; lia.
  - apply lookup_insert_eq.
  - by apply map_size_insert_None.
Qed.

Lemma createTask_stores_any_title_witness :
  wf empty_db ∧ id spaces_title = None
  ∧ (createTask empty_db spaces_title).2
      = Returned (setId spaces_title (identity empty_db))
  ∧ size (rows (createTask empty_db spaces_title).1)
      = S (size (rows empty_db)).
Proof.
  split; [apply wf_empty_db|]. split; [reflexivity|].
  destruct (createTask_stores_any_title empty_db spaces_title)
    as (H1 & _ & _ & _ & _ & H2); [apply wf_empty_db | reflexivity |].
  split; [exact H1 | exact H2].
Defined.

(** C5, as stated, fails: a body sent with [completed = true] is persisted
    and returned with [completed = true]. *)
Lemma createTask_keeps_completed_true :
  createTask empty_db done_already =
    ({| rows := {[ 1 := mkRow (Some (utf16 "x")) true ]}; identity := 2 |},
     Returned (mkTask (Some 1) (Some (utf16 "x")) true))
  ∧ completed done_already = true.
Proof. split; reflexivity. Qed.

(** C5 (amended): [createTask] does not override [completed]: whenever it
    returns a task, that task and its row carry the [completed] value and
    the title the request body had.  Creation starts incomplete only because
    the client's form always submits [completed: false]. *)
Theorem createTask_completed_as_sent db task db' t :
  createTask db task = (db', Returned t) →
  completed t = completed task
  ∧ title t = title task
  ∧ (∃ i, id t = Some i
          ∧ rows db' !! i
            = Some {| row_title := title task;
                      row_completed := completed task |}
          ∧ row_completed <$> rows db' !! i = Some (completed task)
          ∧ row_title <$> rows db' !! i = Some (title task))
  ∧ (∀ text draft,
       (Client.TaskForm.handleSubmit text).1 = Some draft →
       draft !! "completed" = Some (Js.Bool false)).
Proof.
  intros H. apply save_Returned in H as (Ht & Hc & i & Hi & Hrow & _).
  split; [done|]. split; [done|]. split.
  - exists i. split; [done|]. split; [exact Hrow|]. by rewrite Hrow.
  - intros text draft. unfold Client.TaskForm.handleSubmit.
    destruct (Js.not_string _); simpl; [done|].
    intros [= <-]. by simplify_map_eq.
Qed.

Lemma createTask_completed_as_sent_witness :
  completed (mkTask (Some 1) (Some (utf16 "x")) true) = completed done_already
  ∧ title (mkTask (Some 1) (Some (utf16 "x")) true) = title done_already.
Proof.
  destruct (createTask_completed_as_sent empty_db done_already
              {| rows := {[ 1 := mkRow (Some (utf16 "x")) true ]};
                 identity := 2 |}
              (mkTask (Some 1) (Some (utf16 "x")) true))
    as (Hc & Ht & _); [reflexivity|].
  split; assumption.
Defined.

(** ** replace *)

(** Scenario D, on the model: the request fails, but not as the spec has
    it. *)
Example scenario_D :
  updateTask one_row 99 x_task
  = (one_row, Thrown ObjectOptimisticLockingFailure).
Proof. reflexivity. Qed.

(** C2, as stated, fails: [replace(99, "x", false)] on a store that never
    held 99 is not answered with a not-found error (404); the exception
    raised by [repository.save] escapes the controller as a 500. *)
Lemma updateTask_unknown_id_is_not_NotFound :
  rows empty_db !! 99 = None
  ∧ status (updateTask empty_db 99 x_task).2 = 500
  ∧ ¬ NotFoundError (updateTask empty_db 99 x_task).2.
Proof.
  split; [reflexivity|]. split; [reflexivity|]. apply never_NotFoundError.
Qed.

(** C2 (amended): for every [id] with no record, [updateTask] does not
    create or modify any record, and it fails - though not with a not-found
    error: the controller makes no existence check, so the failure is the
    optimistic-locking exception of [repository.save], answered as 500. *)
Theorem updateTask_unknown_id_rejected_by_save db i task :
  rows db !! i = None →
  updateTask db i task = (db, Thrown ObjectOptimisticLockingFailure)
  ∧ status (updateTask db i task).2 = 500
  ∧ ¬ NotFoundError (updateTask db i task).2.
Proof.
  intros Hnone. unfold updateTask.
  rewrite (save_absent db (setId task i) i); [|done|done].
  repeat split. unfold NotFoundError; simpl; lia.
Qed.

Lemma updateTask_unknown_id_rejected_by_save_witness :
  rows empty_db !! 99 = None
  ∧ updateTask empty_db 99 x_task
    = (empty_db, Thrown ObjectOptimisticLockingFailure).
Proof.
  split; [reflexivity|].
  apply (updateTask_unknown_id_rejected_by_save empty_db 99 x_task).
  reflexivity.
Defined.

(** C8: the path [id] is authoritative.  Whatever [id] the body carries, the
    outcome is the same; and whenever a task is returned, it is the body
    under the path [id], stored in the row of that [id], all other rows being
    left as they were.  A record that exists is always replaced. *)
Theorem updateTask_path_id_authoritative db i task :
  (∀ body_id,
     updateTask db i
       {| id := body_id; title := title task; completed := completed task |}
     = updateTask db i task)
  ∧ (∀ db' t,
       updateTask db i task = (db', Returned t) →
       t = setId task i
       ∧ id t = Some i
       ∧ rows db' !! i = Some (row_of task)
       ∧ (∀ j, j ≠ i → rows db' !! j = rows db !! j))
  ∧ (is_Some (rows db !! i) →
     (updateTask db i task).2 = Returned (setId task i)).
Proof.
  split; [done|]. split.
  - intros db' t H. unfold updateTask, save in H. simpl in H.
    destruct (rows db !! i) as [r|] eqn:Hr; simplify_eq.
    simpl. repeat split; [apply lookup_insert_eq|].
    intros j Hj. by apply lookup_insert_ne.
  - intros [r Hr]. unfold updateTask.
    by rewrite (save_present db (setId task i) i r).
Qed.

Lemma updateTask_path_id_authoritative_witness :
  let body := mkTask (Some 7) (Some (utf16 "write report")) true in
  is_Some (rows one_row !! 1)
  ∧ (updateTask one_row 1 body).2 = Returned (setId body 1)
  ∧ updateTask one_row 1 body = updateTask one_row 1 (setId body 42).
Proof.
  intros body.
  destruct (updateTask_path_id_authoritative one_row 1 body)
    as (Hbody & _ & Hret).
  split; [by eexists|]. split.
  - apply Hret. by eexists.
  - symmetry. apply (Hbody (Some 42)).
Defined.

(** ** delete *)

(** C4: [deleteTask] succeeds for every [id], whether or not a record
    exists; afterwards no record has that [id], neither in the table nor in
    what [findAll] lists; a second delete succeeds as well and changes
    nothing; neither is answered with a not-found error; the other records
    are left as they were. *)
Theorem deleteTask_idempotent db i :
  let once := deleteTask db i in
  let twice := deleteTask once.1 i in
  (once.2 = Returned tt ∧ status once.2 = 200 ∧ ¬ NotFoundError once.2)
  ∧ rows once.1 !! i = None
  ∧ (∀ t, t ∈ findAll once.1 → id t ≠ Some i)
  ∧ (twice.2 = Returned tt ∧ status twice.2 = 200 ∧ ¬ NotFoundError twice.2)
  ∧ twice.1 = once.1
  ∧ (∀ j, j ≠ i → rows once.1 !! j = rows db !! j).
Proof.
  simpl. unfold deleteTask, deleteById, NotFoundError; simpl.
  repeat split; try done.
  - apply lookup_delete_eq.
  - intros t Hin Hid. apply elem_of_findAll in Hin as (j & r & Hj & ->).
    simpl in *. simplify_eq. by rewrite lookup_delete_eq in Hj.
  - by rewrite delete_delete_eq.
  - intros j Hj. by apply lookup_delete_ne.
Qed.

Lemma deleteTask_idempotent_witness :
  (deleteTask one_row 1).2 = Returned tt
  ∧ (deleteTask (deleteTask one_row 1).1 1).2 = Returned tt
  ∧ (deleteTask empty_db 1).2 = Returned tt
  ∧ rows (deleteTask one_row 1).1 !! 1 = None.
Proof.
  destruct (deleteTask_idempotent one_row 1)
    as ((H1 & _) & Hgone & _ & (H2 & _) & _).
  destruct (deleteTask_idempotent empty_db 1) as ((H3 & _) & _).
  repeat split; assumption.
Defined.

End TaskStore.

(** * The client: add, toggle, delete *)

Section TaskClient.

Import Js.
Import Client.
Import Client.App.
Import Sample.

Implicit Types (tasks current : list (gmap string value)).
Implicit Types (task t : gmap string value) (id : value).
Implicit Types (title : list N) (st : State).

(** ** add *)

(** The chain of [addTask], outcome by outcome. *)
Lemma addTask_chain tasks task outcome :
  chain (addTask tasks task) outcome =
    match outcome with
    | None => Rejected TypeError
    | Some res =>
        match parsed res with
        | None => Rejected SyntaxError
        | Some newTask => Fulfilled (tasks ++ [newTask])
        end
    end.
Proof.
  destruct outcome as [res|]; simpl; [|done].
  unfold json. by destruct (parsed res).
Qed.

(** A successful add appends the task the server returned. *)
Example add_then_confirm :
  tasks (run initial
           [Submit (utf16 "buy milk");
            Settle 0 (Some (ok_200 (persisted 1 "buy milk" false)))])
  = [persisted 1 "buy milk" false].
Proof. reflexivity. Qed.

(** C3, as stated, fails: the server fails the request with a 500 and
    Spring's error object as body; [fetch] fulfils all the same, the body
    parses, and the error object is appended to the list. *)
Lemma addTask_appends_error_body :
  ok error_500 = false
  ∧ chain (addTask [] buy_milk) (Some error_500) = Fulfilled [spring_error]
  ∧ tasks (run initial
             [Submit (utf16 "buy milk"); Settle 0 (Some error_500)])
    = [spring_error]
  ∧ [spring_error] ≠ ([] : list (gmap string value)).
Proof. repeat split; try reflexivity. discriminate. Qed.

(** C3 (amended): when an add fails without delivering a JSON body - no
    response arrives, or the body of the response does not parse - the
    promise chain is rejected before [setTasks] is reached, so the list is
    exactly as it was.  The rejection has no handler: the client reports
    nothing. *)
Theorem addTask_failure_without_body_keeps_list tasks task outcome :
  (outcome = None ∨ ∃ res, outcome = Some res ∧ parsed res = None) →
  (∃ e, chain (addTask tasks task) outcome = Rejected e)
  ∧ (∀ current,
       settled current (chain (addTask tasks task) outcome) = current)
  ∧ (∀ st k,
       in_flight st !! k = Some (addTask tasks task) →
       App.tasks (step st (Settle k outcome)) = App.tasks st).
Proof.
  intros H.
  assert (∃ e, chain (addTask tasks task) outcome = Rejected e) as [e He].
  { rewrite addTask_chain.
    destruct H as [->|(res & -> & Hp)]; [by eexists|].
    rewrite Hp. by eexists. }
  split; [by eexists|]. split.
  - intros current. by rewrite He.
  - intros st k Hk. simpl. rewrite Hk. simpl.
    change (settled (App.tasks st) (chain (addTask tasks task) outcome)
            = App.tasks st).
    by rewrite He.
Qed.

Lemma addTask_failure_without_body_keeps_list_witness :
  settled [persisted 1 "write report" false]
    (chain (addTask [persisted 1 "write report" false] buy_milk) None)
  = [persisted 1 "write report" false]
  ∧ settled [persisted 1 "write report" false]
      (chain (addTask [persisted 1 "write report" false] buy_milk)
         (Some bad_gateway))
    = [persisted 1 "write report" false].
Proof.
  split.
  - apply (addTask_failure_without_body_keeps_list _ buy_milk None).
    left. reflexivity.
  - apply (addTask_failure_without_body_keeps_list _ buy_milk
             (Some bad_gateway)).
    right. exists bad_gateway. split; reflexivity.
Defined.

(** ** delete *)

(** [filter] with the test of the code and with its reading. *)
Lemma filter_other_ids tasks id :
  filter (λ t, strict_eq (t !! "id") id = false) tasks
  = filter (λ t, t !! "id" ≠ Some id) tasks.
Proof.
  apply list_filter_iff. intros t. unfold strict_eq.
  by rewrite bool_decide_eq_false.
Qed.

Lemma deleteTask_chain tasks id outcome :
  chain (deleteTask tasks id) outcome =
    match outcome with
    | None => Rejected TypeError
    | Some _ => Fulfilled (filter (λ t, t !! "id" ≠ Some id) tasks)
    end.
Proof.
  destruct outcome as [res|]; simpl; [|done]. by rewrite filter_other_ids.
Qed.

(** C6, as stated, fails: the delete call fails with a 500, and the entry is
    removed from the list all the same. *)
Lemma deleteTask_removes_on_error_status :
  ok error_500 = false
  ∧ chain (deleteTask [persisted 1 "write report" false] (Number 1))
      (Some error_500) = Fulfilled []
  ∧ tasks (run {| tasks := [persisted 1 "write report" false];
                  in_flight := [] |}
             [Click 0%nat; Settle 0 (Some error_500)]) = [].
Proof. repeat split; reflexivity. Qed.

(** C6 (amended): the entry is removed from the list only after the DELETE
    request has been answered: issuing the request leaves the list as it is,
    and a successful answer replaces it by the entries with another [id] -
    once the request has settled, the list of the application is the list
    the request was issued from without the entries of that [id].  If no
    response arrives, the entry remains; the rejection has no handler, so
    the client reports nothing. *)
Theorem deleteTask_removes_after_response tasks id :
  (∀ st n, App.tasks (step st (Click n)) = App.tasks st)
  ∧ (∀ res,
       ok res = true →
       chain (deleteTask tasks id) (Some res)
       = Fulfilled (filter (λ t, t !! "id" ≠ Some id) tasks))
  ∧ (∀ st k res,
       in_flight st !! k = Some (deleteTask tasks id) →
       ok res = true →
       App.tasks (step st (Settle k (Some res)))
       = filter (λ t, t !! "id" ≠ Some id) tasks
       ∧ ∀ t, t ∈ App.tasks (step st (Settle k (Some res))) →
              t !! "id" ≠ Some id)
  ∧ chain (deleteTask tasks id) None = Rejected TypeError
  ∧ (∀ current,
       settled current (chain (deleteTask tasks id) None) = current)
  ∧ (∀ st k,
       in_flight st !! k = Some (deleteTask tasks id) →
       App.tasks (step st (Settle k None)) = App.tasks st).
Proof.
  split; [done|]. split; [intros res _; apply deleteTask_chain|].
  split.
  { intros st k res Hk _.
    assert (App.tasks (step st (Settle k (Some res)))
            = filter (λ t, t !! "id" ≠ Some id) tasks) as Heq.
    { simpl. rewrite Hk. simpl. apply filter_other_ids. }
    split; [exact Heq|]. rewrite Heq. intros t Hin.
    by apply list_elem_of_filter in Hin as [? _]. }
  split; [done|]. split; [done|].
  intros st k Hk. simpl. by rewrite Hk.
Qed.

Lemma deleteTask_removes_after_response_witness :
  ok (ok_200 ∅) = true
  ∧ chain (deleteTask [persisted 1 "a" false; persisted 2 "b" true]
             (Number 1))
      (Some (ok_200 ∅))
    = Fulfilled (filter (λ t, t !! "id" ≠ Some (Number 1))
                   [persisted 1 "a" false; persisted 2 "b" true])
  ∧ App.tasks
      (step {| tasks := [persisted 1 "a" false; persisted 2 "b" true];
               in_flight :=
                 [deleteTask [persisted 1 "a" false; persisted 2 "b" true]
                    (Number 1)] |}
         (Settle 0 (Some (ok_200 ∅))))
    = filter (λ t, t !! "id" ≠ Some (Number 1))
        [persisted 1 "a" false; persisted 2 "b" true].
Proof.
  destruct (deleteTask_removes_after_response
              [persisted 1 "a" false; persisted 2 "b" true] (Number 1))
    as (_ & Hchain & Hlist & _).
  split; [reflexivity|]. split.
  - apply Hchain. reflexivity.
  - apply (Hlist
             {| tasks := [persisted 1 "a" false; persisted 2 "b" true];
                in_flight :=
                  [deleteTask [persisted 1 "a" false; persisted 2 "b" true]
                     (Number 1)] |}
             0%nat (ok_200 ∅)); reflexivity.
Defined.

(** ** toggle *)

Example toggle_then_confirm :
  tasks (run {| tasks := [persisted 1 "a" false; persisted 2 "b" false];
                in_flight := [] |}
           [Change 1%nat; Settle 0 (Some (ok_200 (persisted 2 "b" true)))])
  = [persisted 1 "a" false; persisted 2 "b" true].
Proof. reflexivity. Qed.

(** Two requests for one [id], answered out of order: each chain computes
    the next list from the list of the render that issued it, so the answer
    that arrives last wins, and here brings a deleted entry back. *)
Example last_answer_wins :
  tasks (run {| tasks := [persisted 1 "a" false]; in_flight := [] |}
           [Change 0%nat; Click 0%nat;
            Settle 1 (Some (ok_200 ∅));
            Settle 0 (Some (ok_200 (persisted 1 "a" true)))])
  = [persisted 1 "a" true].
Proof. reflexivity. Qed.

(** C7: toggling an [id] that some entry of the list has issues one PUT to
    that [id] whose body is the entry found, with [completed] negated and
    every other property - [id] and [title] among them - as it is in the
    list; when the request succeeds, every entry with that [id] is replaced
    by the task the server returned and the other entries stay as they are:
    that is the list the chain delivers, and the list of the application
    once the request has settled.  Toggling an [id] no entry has issues no
    request and leaves the state as it is. *)
Theorem toggleTask_sends_flipped_snapshot tasks id :
  ((∃ t, t ∈ tasks ∧ t !! "id" = Some id) →
   ∃ task p b,
     find_by_id tasks id = Some task
     ∧ task ∈ tasks ∧ task !! "id" = Some id
     ∧ toggleTask tasks id = Some p
     ∧ request p = {| method := PUT; path := Some id; body := Some b |}
     ∧ b !! "completed" = Some (Bool (negb (truthy (task !! "completed"))))
     ∧ (∀ c, task !! "completed" = Some (Bool c) →
             b !! "completed" = Some (Bool (negb c)))
     ∧ (∀ k, k ≠ "completed" → b !! k = task !! k)
     ∧ b !! "id" = Some id ∧ b !! "title" = task !! "title"
     ∧ (∀ res updatedTask,
          ok res = true → parsed res = Some updatedTask →
          ∃ next,
            chain p (Some res) = Fulfilled next
            ∧ length next = length tasks
            ∧ (∀ n t, tasks !! n = Some t →
                 next !! n
                 = Some (if decide (t !! "id" = Some id)
                         then updatedTask else t))
            ∧ (∀ st k, in_flight st !! k = Some p →
                 App.tasks (step st (Settle k (Some res))) = next
                 ∧ ∀ n t, tasks !! n = Some t →
                     App.tasks (step st (Settle k (Some res))) !! n
                     = Some (if decide (t !! "id" = Some id)
                             then updatedTask else t))))
  ∧ ((∀ t, t ∈ tasks → t !! "id" ≠ Some id) →
     toggleTask tasks id = None
     ∧ ∀ st, issue st (toggleTask tasks id) = st).
Proof.
  split.
  - intros Hex. destruct (find_by_id_present _ _ Hex) as [task Hfind].
    destruct (find_by_id_Some _ _ _ Hfind) as [Hin Hid].
    unfold toggleTask. rewrite Hfind.
    eexists task, _, _. simpl.
    split; [done|]. split; [done|]. split; [done|]. split; [done|].
    split; [done|]. split; [apply lookup_insert_eq|].
    split; [intros c Hc; rewrite Hc; apply lookup_insert_eq|].
    split; [intros k Hk; by apply lookup_insert_ne|].
    split; [by rewrite lookup_insert_ne|].
    split; [by rewrite lookup_insert_ne|].
    intros res updatedTask _ Hp.
    assert (∀ n t, tasks !! n = Some t →
              ((λ t, if strict_eq (t !! "id") id then updatedTask else t)
                 <$> tasks) !! n
              = Some (if decide (t !! "id" = Some id)
                      then updatedTask else t)) as Hnext.
    { intros n t Hn. rewrite list_lookup_fmap, Hn. simpl. f_equal.
      unfold strict_eq. by destruct (decide (t !! "id" = Some id));
        [rewrite bool_decide_eq_true_2 | rewrite bool_decide_eq_false_2]. }
    simpl. unfold json. rewrite Hp. simpl.
    eexists. split; [done|]. split; [by rewrite length_fmap|].
    split; [exact Hnext|].
    intros st k Hk.
    assert (App.tasks (step st (Settle k (Some res)))
            = (λ t, if strict_eq (t !! "id") id then updatedTask else t)
                <$> tasks) as Heq.
    { simpl. rewrite Hk. simpl. unfold json. by rewrite Hp. }
    split; [exact Heq|].
    intros n t Hn. rewrite <- (Hnext n t Hn). f_equal. exact Heq.
  - intros Habs. apply find_by_id_None in Habs.
    unfold toggleTask. rewrite Habs. split; [done|].
    intros st. apply issue_None.
Qed.

Lemma toggleTask_sends_flipped_snapshot_witness :
  ∃ task p b,
    find_by_id [persisted 1 "a" false; persisted 2 "b" false] (Number 2)
    = Some task
    ∧ toggleTask [persisted 1 "a" false; persisted 2 "b" false] (Number 2)
      = Some p
    ∧ request p
      = {| method := PUT; path := Some (Number 2); body := Some b |}
    ∧ b !! "completed" = Some (Bool (negb (truthy (task !! "completed"))))
    ∧ App.tasks
        (step {| tasks := [persisted 1 "a" false; persisted 2 "b" false];
                 in_flight := [p] |}
           (Settle 0 (Some (ok_200 (persisted 2 "b" true)))))
      !! 1%nat
      = Some (persisted 2 "b" true).
Proof.
  destruct (toggleTask_sends_flipped_snapshot
              [persisted 1 "a" false; persisted 2 "b" false] (Number 2))
    as [Hpresent _].
  destruct Hpresent
    as (task & p & b & Hfind & _ & _ & Htoggle & Hreq & Hflip & _ & _ & _
        & _ & Hsuccess).
  - exists (persisted 2 "b" false). split; [|reflexivity].
    apply list_elem_of_lookup. exists 1%nat. reflexivity.
  - exists task, p, b. repeat split; try assumption.
    destruct (Hsuccess (ok_200 (persisted 2 "b" true))
                (persisted 2 "b" true) eq_refl eq_refl)
      as (next & _ & _ & _ & Hsettle).
    destruct (Hsettle
                {| tasks := [persisted 1 "a" false; persisted 2 "b" false];
                   in_flight := [p] |} 0%nat eq_refl) as [_ Hlook].
    exact (Hlook 1%nat (persisted 2 "b" false) eq_refl).
Defined.

(** ** the form *)

(** C9: a submission whose title is empty or whitespace-only stops in
    [handleSubmit]: [onAdd] is not called, so no request is issued and the
    state of the application, its list included, is as before.  For any other
    title the form submits a draft with that title, [completed = false] and
    no [id], and one POST carrying that draft is issued. *)
Theorem handleSubmit_prevalidates title :
  let draft : gmap string value :=
    {[ "title" := Str title; "completed" := Bool false ]} in
  (blank title →
   TaskForm.handleSubmit title = (None, title)
   ∧ ∀ st, step st (Submit title) = st ∧ issued st (Submit title) = [])
  ∧ (¬ blank title →
     TaskForm.handleSubmit title = (Some draft, [])
     ∧ draft !! "title" = Some (Str title)
     ∧ draft !! "completed" = Some (Bool false)
     ∧ draft !! "id" = None
     ∧ ∀ st,
         issued st (Submit title) = [addTask (App.tasks st) draft]
         ∧ request (addTask (App.tasks st) draft)
           = {| method := POST; path := None; body := Some draft |}
         ∧ App.tasks (step st (Submit title)) = App.tasks st).
Proof.
  intros draft. split.
  - intros Hblank. apply not_string_trim in Hblank.
    assert (TaskForm.handleSubmit title = (None, title)) as Hs
      by (unfold TaskForm.handleSubmit; by rewrite Hblank).
    split; [done|]. intros st.
    assert (step st (Submit title) = st) as Hstep
      by (simpl; rewrite Hs; apply issue_None).
    split; [done|]. unfold issued. rewrite Hstep. apply drop_all.
  - intros Hnot.
    assert (not_string (trim title) = false) as Hf.
    { destruct (not_string (trim title)) eqn:E; [|done].
      by apply not_string_trim in E. }
    assert (TaskForm.handleSubmit title = (Some draft, [])) as Hs
      by (unfold TaskForm.handleSubmit; by rewrite Hf).
    split; [done|]. split; [by subst draft; simplify_map_eq|].
    split; [by subst draft; simplify_map_eq|].
    split; [by subst draft; simplify_map_eq|].
    intros st. split; [|done].
    apply (issued_issue st _ (Some (addTask (App.tasks st) draft))).
    simpl. by rewrite Hs.
Qed.

Lemma handleSubmit_prevalidates_witness :
  (blank (utf16 "   ")
   ∧ TaskForm.handleSubmit (utf16 "   ") = (None, utf16 "   "))
  ∧ (¬ blank (utf16 "buy milk")
     ∧ TaskForm.handleSubmit (utf16 "buy milk") = (Some buy_milk, [])).
Proof.
  assert (blank (utf16 "   ")) as Hb by (by vm_compute; repeat constructor).
  assert (¬ blank (utf16 "buy milk")) as Hn
    by (inversion 1; discriminate).
  split; (split; [assumption|]).
  - by apply (handleSubmit_prevalidates (utf16 "   ")).
  - by apply (handleSubmit_prevalidates (utf16 "buy milk")).
Defined.

(** ** the list items *)

Lemma falsy_ids :
  truthy None = false ∧ truthy (Some (Number 0)) = false
  ∧ truthy (Some Null) = false.
Proof. done. Qed.

(** C10: for a rendered task whose [id] is falsy - absent, as for a draft,
    or [0] - neither the checkbox nor the delete button calls its handler:
    no toggle and no delete is issued, and the state stays as it is. *)
Theorem falsy_id_reaches_no_handler tasks n task :
  tasks !! n = Some task →
  truthy (task !! "id") = false →
  TaskItem.onChange task = None ∧ TaskItem.onClick task = None
  ∧ TaskList.onChange tasks n = None ∧ TaskList.onClick tasks n = None
  ∧ ∀ st, App.tasks st = tasks →
          step st (Change n) = st ∧ step st (Click n) = st.
Proof.
  intros Hn Hfalsy.
  assert (TaskItem.onChange task = None) as Hc
    by (unfold TaskItem.onChange; by rewrite Hfalsy).
  assert (TaskItem.onClick task = None) as Hk
    by (unfold TaskItem.onClick; by rewrite Hfalsy).
  assert (TaskList.onChange tasks n = None) as Hlc
    by (unfold TaskList.onChange; by rewrite Hn).
  assert (TaskList.onClick tasks n = None) as Hlk
    by (unfold TaskList.onClick; by rewrite Hn).
  repeat split; try done; subst tasks; simpl.
  - rewrite Hlc. apply issue_None.
  - rewrite Hlk. apply issue_None.
Qed.

Lemma falsy_id_reaches_no_handler_witness :
  (TaskList.onChange [buy_milk; persisted 0 "zero" false] 0 = None
   ∧ TaskList.onClick [buy_milk; persisted 0 "zero" false] 0 = None)
  ∧ (TaskList.onChange [buy_milk; persisted 0 "zero" false] 1 = None
     ∧ TaskList.onClick [buy_milk; persisted 0 "zero" false] 1 = None).
Proof.
  split.
  - destruct (falsy_id_reaches_no_handler
                [buy_milk; persisted 0 "zero" false] 0 buy_milk)
      as (_ & _ & H1 & H2 & _); [reflexivity | reflexivity |].
    split; assumption.
  - destruct (falsy_id_reaches_no_handler
                [buy_milk; persisted 0 "zero" false] 1
                (persisted 0 "zero" false))
      as (_ & _ & H1 & H2 & _); [reflexivity | reflexivity |].
    split; assumption.
Defined.

(** A task with a truthy [id] does reach its handlers, with that [id]. *)
Lemma truthy_id_reaches_handlers task :
  truthy (task !! "id") = true →
  TaskItem.onChange task = task !! "id"
  ∧ TaskItem.onClick task = task !! "id".
Proof.
  intros H. unfold TaskItem.onChange, TaskItem.onClick. by rewrite H.
Qed.

End TaskClient.

(** * More on the task store *)

Section TaskStoreRuns.

Import Server.
Import Server.TaskRepository.
Import Server.TaskController.
Import Resource.
Import Sample.

Implicit Types (db : Database) (task t : Task) (i : Z).
Implicit Types (r : Request) (rs : list Request).

(** ** Runs of requests *)

Lemma dispatch_wf db r : wf db → wf (dispatch db r).1.
Proof.
  destruct r; simpl; [done | apply save_wf | apply save_wf |
                      apply deleteById_wf].
Qed.

Lemma save_identity_le db t : identity db ≤ identity (save db t).1.
Proof.
  unfold save. destruct (id t) as [i|]; [destruct (rows db !! i)|];
    simpl; lia.
Qed.

Lemma dispatch_identity_le db r : identity db ≤ identity (dispatch db r).1.
Proof.
  destruct r; simpl; try lia; apply save_identity_le.
Qed.

Lemma serve_app db rs rs' : serve db (rs ++ rs') = serve (serve db rs) rs'.
Proof. unfold serve. apply foldl_app. Qed.

Lemma serve_identity_le db rs : identity db ≤ identity (serve db rs).
Proof.
  revert db. induction rs as [|r rs IH]; intros db; simpl; [lia|].
  etrans; [apply (dispatch_identity_le db r)|]. apply IH.
Qed.

Lemma serve_wf db rs : wf db → wf (serve db rs).
Proof.
  revert db. induction rs as [|r rs IH]; intros db Hwf; simpl; [done|].
  apply IH. by apply dispatch_wf.
Qed.

(** X1: whatever requests have been served since the table was empty, every
    key in the table is positive and below the next identity value - so the
    next create never collides with a stored record. *)
Theorem reachable_wf db :
  reachable db → wf db ∧ rows db !! identity db = None.
Proof.
  intros [rs ->].
  assert (wf (serve empty_db rs)) as Hwf by (apply serve_wf, wf_empty_db).
  split; [done|]. by apply wf_identity_fresh.
Qed.

Lemma reachable_wf_witness :
  reachable one_row ∧ wf one_row ∧ rows one_row !! identity one_row = None.
Proof.
  assert (reachable one_row) as H by (exists [PostTask write_report]; done).
  split; [exact H|]. exact (reachable_wf one_row H).
Defined.

(** X2: an [id] handed out by a create is never handed out again, whatever
    is served in between, deletes included: a later create gets a strictly
    greater [id]. *)
Theorem created_ids_increase db task1 task2 rs :
  id task1 = None → id task2 = None →
  ∃ i j,
    (createTask db task1).2 = Returned (setId task1 i)
    ∧ (createTask (serve (createTask db task1).1 rs) task2).2
      = Returned (setId task2 j)
    ∧ i < j.
Proof.
  intros H1 H2. exists (identity db).
  exists (identity (serve (createTask db task1).1 rs)).
  unfold createTask. rewrite (save_new _ _ H1), (save_new _ _ H2). simpl.
  split; [done|]. split; [done|].
  pose proof (serve_identity_le
                {| rows := <[identity db := row_of task1]> (rows db);
                   identity := identity db + 1 |} rs) as Hle.
  simpl in Hle. lia.
Qed.

Lemma created_ids_increase_witness :
  ∃ i j,
    (createTask empty_db write_report).2 = Returned (setId write_report i)
    ∧ (createTask
         (serve (createTask empty_db write_report).1 [DeleteTask 1]) x_task).2
      = Returned (setId x_task j)
    ∧ i < j.
Proof.
  apply (created_ids_increase empty_db write_report x_task [DeleteTask 1]);
    reflexivity.
Defined.

(** ** Listing *)

Lemma findAll_ids db : id <$> findAll db = Some <$> (map_to_list (rows db)).*1.
Proof.
  unfold findAll. rewrite <- !list_fmap_compose. by apply list_fmap_ext.
Qed.

(** X3: [getAllTasks] leaves the table as it is, and lists every record
    once: each listed task has an [id], and no two share one. *)
Theorem getAllTasks_distinct_ids db :
  (getAllTasks db).1 = db
  ∧ (getAllTasks db).2 = Returned (findAll db)
  ∧ NoDup (id <$> findAll db)
  ∧ (∀ t, t ∈ findAll db → ∃ i, id t = Some i ∧ rows db !! i = Some (row_of t))
  ∧ length (findAll db) = size (rows db).
Proof.
  split; [done|]. split; [done|]. split; [|split].
  - rewrite findAll_ids. apply (NoDup_fmap_2 _). apply NoDup_fst_map_to_list.
  - intros t Hin. apply elem_of_findAll in Hin as (i & r & Hr & ->).
    exists i. split; [done|]. by destruct r.
  - unfold findAll. rewrite length_fmap. apply length_map_to_list.
Qed.

(** X4: create, then list: the list is the one before plus the task that was
    returned. *)
Theorem createTask_then_findAll db task t :
  wf db → id task = None →
  t ∈ findAll (createTask db task).1
  ↔ t = setId task (identity db) ∨ t ∈ findAll db.
Proof.
  intros Hwf Hid. pose proof (wf_identity_fresh db Hwf) as Hfresh.
  unfold createTask. rewrite (save_new _ _ Hid). simpl.
  rewrite !elem_of_findAll. simpl. split.
  - intros (i & r & Hr & ->).
    destruct (decide (identity db = i)) as [<-|Hne].
    + rewrite lookup_insert_eq in Hr. simplify_eq. by left.
    + rewrite lookup_insert_ne in Hr by done. right. eauto.
  - intros [->|(i & r & Hr & ->)].
    + exists (identity db), (row_of task).
      split; [apply lookup_insert_eq | done].
    + exists i, r. split; [|done].
      rewrite lookup_insert_ne; [done|]. intros <-. congruence.
Qed.

Lemma createTask_then_findAll_witness :
  setId x_task 2 ∈ findAll (createTask one_row x_task).1.
Proof.
  apply (createTask_then_findAll one_row x_task (setId x_task 2)).
  - apply (serve_wf empty_db [PostTask write_report]), wf_empty_db.
  - reflexivity.
  - left. reflexivity.
Defined.

(** X5: replace is a full replace: after [updateTask] on an [id] that has a
    record, the list shows the body under that [id] - nothing of the old
    record - and every other task as before; no record is added and no
    identity value is used up. *)
Theorem updateTask_then_findAll db i body (old : Row) t :
  rows db !! i = Some old →
  (t ∈ findAll (updateTask db i body).1
   ↔ t = setId body i ∨ (t ∈ findAll db ∧ id t ≠ Some i))
  ∧ size (rows (updateTask db i body).1) = size (rows db)
  ∧ identity (updateTask db i body).1 = identity db.
Proof.
  intros Hr. unfold updateTask.
  rewrite (save_present db (setId body i) i old); [|done|done]. simpl.
  split; [|split; [|done]].
  - rewrite !elem_of_findAll. simpl. split.
    + intros (j & r' & Hj & ->).
      destruct (decide (i = j)) as [<-|Hne].
      * rewrite lookup_insert_eq in Hj. simplify_eq. by left.
      * rewrite lookup_insert_ne in Hj by done. right.
        split; [by exists j, r' | simpl; congruence].
    + intros [->|[(j & r' & Hj & ->) Hne]].
      * exists i, (row_of body). split; [apply lookup_insert_eq | done].
      * exists j, r'. split; [|done].
        rewrite lookup_insert_ne; [done|]. intros <-. by apply Hne.
  - rewrite map_size_insert_Some; [done|]. by eexists.
Qed.

Lemma updateTask_then_findAll_witness :
  setId done_already 1 ∈ findAll (updateTask one_row 1 done_already).1
  ∧ size (rows (updateTask one_row 1 done_already).1) = size (rows one_row).
Proof.
  destruct (updateTask_then_findAll one_row 1 done_already
              (mkRow (Some (utf16 "write report")) false)
              (setId done_already 1)) as (Hiff & Hsize & _); [reflexivity|].
  split; [apply Hiff; by left | exact Hsize].
Defined.

(** ** Requests that carry an [id] *)

(** X6: a POST whose body carries the [id] of a stored record does not
    create anything: it replaces that record, like a PUT to that [id]; the
    table keeps its size and no identity value is used up. *)
Theorem createTask_with_stored_id_replaces db i task (old : Row) :
  rows db !! i = Some old → id task = Some i →
  createTask db task = updateTask db i task
  ∧ (createTask db task).2 = Returned task
  ∧ rows (createTask db task).1 !! i = Some (row_of task)
  ∧ size (rows (createTask db task).1) = size (rows db)
  ∧ identity (createTask db task).1 = identity db.
Proof.
  intros Hr Hid.
  assert (setId task i = task) as Hset by (destruct task; simpl in *; by subst).
  unfold updateTask, createTask. rewrite Hset.
  rewrite (save_present db task i old Hid Hr). simpl.
  repeat split; [apply lookup_insert_eq|].
  rewrite map_size_insert_Some; [done|]. by eexists.
Qed.

Lemma createTask_with_stored_id_replaces_witness :
  (createTask one_row (setId done_already 1)).2
  = Returned (setId done_already 1)
  ∧ size (rows (createTask one_row (setId done_already 1)).1)
    = size (rows one_row).
Proof.
  destruct (createTask_with_stored_id_replaces one_row 1
              (setId done_already 1)
              (mkRow (Some (utf16 "write report")) false))
    as (_ & Hret & _ & Hsize & _); [reflexivity | reflexivity |].
  split; assumption.
Defined.

(** X7: a deleted record cannot be brought back by a PUT: replacing an [id]
    right after deleting it fails and leaves the table as the delete left
    it, whatever the table held before. *)
Theorem updateTask_after_deleteTask db i body :
  updateTask (deleteTask db i).1 i body
  = ((deleteTask db i).1, Thrown ObjectOptimisticLockingFailure)
  ∧ ∀ t, t ∈ findAll (updateTask (deleteTask db i).1 i body).1 → id t ≠ Some i.
Proof.
  assert (rows (deleteTask db i).1 !! i = None) as Hgone
    by (simpl; apply lookup_delete_eq).
  assert (updateTask (deleteTask db i).1 i body
          = ((deleteTask db i).1, Thrown ObjectOptimisticLockingFailure))
    as Heq.
  { unfold updateTask.
    by rewrite (save_absent (deleteTask db i).1 (setId body i) i). }
  split; [done|]. rewrite Heq. cbn [fst].
  intros t Hin Hid. apply elem_of_findAll in Hin as (j & r' & Hj & ->).
  simpl in Hid. by simplify_eq.
Qed.

(** X8: deleting an [id] that has no record leaves the table exactly as it
    is; deleting one that has a record removes exactly that record. *)
Theorem deleteTask_size db i :
  (rows db !! i = None → (deleteTask db i).1 = db)
  ∧ (is_Some (rows db !! i) →
     S (size (rows (deleteTask db i).1)) = size (rows db)
     ∧ ∀ t, t ∈ findAll db →
            t ∈ findAll (deleteTask db i).1 ↔ id t ≠ Some i).
Proof.
  split.
  - intros Hnone. destruct db as [m n]. unfold deleteTask, deleteById.
    simpl in *. by rewrite delete_id.
  - intros [old Hold]. simpl. split.
    + rewrite map_size_delete_Some by (by eexists).
      assert (size (rows db) ≠ 0%nat); [|lia].
      intros H0. apply map_size_empty_iff in H0.
      rewrite H0 in Hold. by rewrite lookup_empty in Hold.
    + intros t Hin. apply elem_of_findAll in Hin as (j & r' & Hj & ->).
      rewrite elem_of_findAll. simpl. split.
      * intros (k & r'' & Hk & Heq) [= ->].
        injection Heq as <- _ _. by rewrite lookup_delete_eq in Hk.
      * intros Hne. exists j, r'. split; [|done].
        rewrite lookup_delete_ne; [done|]. intros ->. by apply Hne.
Qed.

Lemma deleteTask_size_witness :
  (deleteTask empty_db 5).1 = empty_db
  ∧ S (size (rows (deleteTask one_row 1).1)) = size (rows one_row).
Proof.
  split.
  - apply (deleteTask_size empty_db 5). reflexivity.
  - apply (deleteTask_size one_row 1). by eexists.
Defined.

End TaskStoreRuns.

(** * The guide's service layers *)

Section ServiceLayers.

Import Server.
Import Sample.

Implicit Types (db : Database) (task : Task) (i : Z) (s : list N).

(** ** Java's trim *)

Lemma java_trimStart_nil_iff s : Java.trimStart s = [] ↔ Java.blank s.
Proof.
  unfold Java.blank. induction s as [|c s IH]; simpl.
  - split; [constructor | done].
  - destruct (Java.is_space c) eqn:E.
    + rewrite IH. split; [by constructor | by inversion 1].
    + split; [done | inversion 1; congruence].
Qed.

Lemma java_trimStart_blank_iff s : Java.blank (Java.trimStart s) ↔ Java.blank s.
Proof.
  induction s as [|c s IH]; simpl; [done|].
  destruct (Java.is_space c) eqn:E; [|done].
  rewrite IH. unfold Java.blank. split; [by constructor | by inversion 1].
Qed.

Lemma java_trim_isEmpty s : Java.isEmpty (Java.trim s) = true ↔ Java.blank s.
Proof.
  unfold Java.isEmpty, Java.trim. rewrite bool_decide_eq_true.
  rewrite <- (java_trimStart_blank_iff s).
  assert (Java.blank (Java.trimStart s)
          ↔ Java.blank (reverse (Java.trimStart s))) as ->
    by (unfold Java.blank; by rewrite Forall_reverse).
  rewrite <- java_trimStart_nil_iff.
  split; intros H.
  - apply (f_equal reverse) in H. by rewrite reverse_involutive in H.
  - by rewrite H.
Qed.

(** ** The layered service *)

(** X9: the layered [TaskService.createTask] refuses exactly the titles that
    are [null] or made of characters up to U+0020 only: it throws "Title
    cannot be empty" and leaves the table as it is.  Every other body goes
    to [repository.save] as it is - what the deployed controller does with
    every body - [completed] and [id] of the body included. *)
Theorem layered_createTask_validates db task :
  (Java.refused (title task) →
   Layered.TaskService.createTask db task
   = (db, Layered.Throws Layered.IllegalArgumentException_TitleEmpty))
  ∧ (¬ Java.refused (title task) →
     Layered.TaskService.createTask db task
     = ((TaskController.createTask db task).1,
        Layered.of_reply (TaskController.createTask db task).2)
     ∧ (Layered.TaskService.createTask db task).2
       ≠ Layered.Throws Layered.IllegalArgumentException_TitleEmpty).
Proof.
  unfold Layered.TaskService.createTask, Java.refused, TaskController.createTask.
  destruct (title task) as [s|]; [|by split].
  split.
  - intros Hb. apply java_trim_isEmpty in Hb. by rewrite Hb.
  - intros Hnb.
    destruct (Java.isEmpty (Java.trim s)) eqn:E;
      [by apply java_trim_isEmpty in E|].
    split; [done|]. simpl. by destruct (TaskRepository.save db task).2.
Qed.

Lemma layered_createTask_validates_witness :
  (Java.refused (title spaces_title)
   ∧ Layered.TaskService.createTask empty_db spaces_title
     = (empty_db, Layered.Throws Layered.IllegalArgumentException_TitleEmpty))
  ∧ (¬ Java.refused (title done_already)
     ∧ (Layered.TaskService.createTask empty_db done_already).2
       = Layered.Returns (mkTask (Some 1) (Some (utf16 "x")) true)).
Proof.
  assert (Java.refused (title spaces_title)) as Hb
    by (by vm_compute; repeat constructor).
  assert (¬ Java.refused (title done_already)) as Hn
    by (inversion 1; discriminate).
  split; (split; [assumption|]).
  - by apply (layered_createTask_validates empty_db spaces_title).
  - destruct (layered_createTask_validates empty_db done_already)
      as [_ H]. destruct (H Hn) as [-> _]. reflexivity.
Defined.

(** X10: the layered [TaskService.updateTask] throws "Task not found" for
    an [id] without a record and leaves the table as it is; for an [id] with
    a record it does what the deployed controller does: the record is
    replaced by the body's title and [completed] and returned under the path
    [id], whatever [id] the body carries. *)
Theorem layered_updateTask_finds_or_throws db i task :
  (rows db !! i = None →
   Layered.TaskService.updateTask db i task
   = (db, Layered.Throws (Layered.RuntimeException_TaskNotFound i)))
  ∧ (is_Some (rows db !! i) →
     Layered.TaskService.updateTask db i task
     = ((TaskController.updateTask db i task).1,
        Layered.of_reply (TaskController.updateTask db i task).2)
     ∧ (Layered.TaskService.updateTask db i task).2
       = Layered.Returns (setId task i)
     ∧ rows (Layered.TaskService.updateTask db i task).1 !! i
       = Some (row_of task)).
Proof.
  unfold Layered.TaskService.updateTask, Layered.findById,
    TaskController.updateTask.
  split.
  - intros Hnone. by rewrite Hnone.
  - intros [old Hold]. rewrite Hold. simpl.
    change {| id := Some i; title := title task;
              completed := completed task |} with (setId task i).
    rewrite (save_present db (setId task i) i old);
      [|done|done].
    simpl. repeat split. apply lookup_insert_eq.
Qed.

Lemma layered_updateTask_finds_or_throws_witness :
  Layered.TaskService.updateTask empty_db 99 x_task
  = (empty_db, Layered.Throws (Layered.RuntimeException_TaskNotFound 99))
  ∧ (Layered.TaskService.updateTask one_row 1 done_already).2
    = Layered.Returns (setId done_already 1).
Proof.
  split.
  - apply (layered_updateTask_finds_or_throws empty_db 99 x_task).
    reflexivity.
  - apply (layered_updateTask_finds_or_throws one_row 1 done_already).
    by eexists.
Defined.

(** ** The hexagonal service *)

(** X11: the hexagonal [TaskService.createTask] takes a title only: a title
    that is [null] or blank is refused with "Title cannot be empty" and
    nothing is stored; any other title is stored under a fresh [id] with
    [completed = false], and the table grows by one. *)
Theorem hexagonal_createTask_starts_incomplete db title :
  (Java.refused title →
   Hexagonal.TaskService.createTask db title
   = (db, Hexagonal.Throws Hexagonal.IllegalArgumentException_TitleEmpty))
  ∧ (¬ Java.refused title → wf db →
     (Hexagonal.TaskService.createTask db title).2
     = Hexagonal.Returns
         (Hexagonal.mkTask (Some (identity db)) title false)
     ∧ rows (Hexagonal.TaskService.createTask db title).1 !! identity db
       = Some (mkRow title false)
     ∧ size (rows (Hexagonal.TaskService.createTask db title).1)
       = S (size (rows db))).
Proof.
  unfold Hexagonal.TaskService.createTask, Java.refused.
  destruct title as [s|]; [|by split].
  split.
  - intros Hb. apply java_trim_isEmpty in Hb. by rewrite Hb.
  - intros Hnb Hwf.
    destruct (Java.isEmpty (Java.trim s)) eqn:E;
      [by apply java_trim_isEmpty in E|].
    simpl. split; [done|]. split; [apply lookup_insert_eq|].
    apply map_size_insert_None. by apply wf_identity_fresh.
Qed.

Lemma hexagonal_createTask_starts_incomplete_witness :
  Hexagonal.TaskService.createTask one_row (Some (utf16 " "))
  = (one_row, Hexagonal.Throws Hexagonal.IllegalArgumentException_TitleEmpty)
  ∧ (Hexagonal.TaskService.createTask one_row (Some (utf16 "x"))).2
    = Hexagonal.Returns (Hexagonal.mkTask (Some 2) (Some (utf16 "x")) false).
Proof.
  split.
  - apply (hexagonal_createTask_starts_incomplete one_row (Some (utf16 " "))).
    by vm_compute; repeat constructor.
  - apply (hexagonal_createTask_starts_incomplete one_row (Some (utf16 "x"))).
    + inversion 1; discriminate.
    + apply (save_wf empty_db write_report), wf_empty_db.
Defined.

(** X12: the hexagonal [TaskService.updateTask] throws "Task not found" for
    an [id] without a record and stores nothing; for an [id] with a record
    it stores and returns exactly the [id], title and [completed] it was
    given, and no other record changes. *)
Theorem hexagonal_updateTask_finds_or_throws db i title completed :
  (rows db !! i = None →
   Hexagonal.TaskService.updateTask db i title completed
   = (db, Hexagonal.Throws Hexagonal.RuntimeException_TaskNotFound))
  ∧ (is_Some (rows db !! i) →
     (Hexagonal.TaskService.updateTask db i title completed).2
     = Hexagonal.Returns (Hexagonal.mkTask (Some i) title completed)
     ∧ rows (Hexagonal.TaskService.updateTask db i title completed).1 !! i
       = Some (mkRow title completed)
     ∧ ∀ j, j ≠ i →
            rows (Hexagonal.TaskService.updateTask db i title completed).1
              !! j
            = rows db !! j).
Proof.
  unfold Hexagonal.TaskService.updateTask,
    Hexagonal.TaskPersistenceAdapter.findById, Layered.findById.
  split.
  - intros Hnone. by rewrite Hnone.
  - intros [old Hold]. rewrite Hold. simpl.
    unfold Hexagonal.TaskPersistenceAdapter.save. simpl.
    unfold TaskRepository.save. simpl. rewrite Hold. simpl.
    split; [done|]. split; [apply lookup_insert_eq|].
    intros j Hj. by apply lookup_insert_ne.
Qed.

Lemma hexagonal_updateTask_finds_or_throws_witness :
  Hexagonal.TaskService.updateTask empty_db 99 (Some (utf16 "x")) false
  = (empty_db, Hexagonal.Throws Hexagonal.RuntimeException_TaskNotFound)
  ∧ (Hexagonal.TaskService.updateTask one_row 1 (Some (utf16 "x")) true).2
    = Hexagonal.Returns (Hexagonal.mkTask (Some 1) (Some (utf16 "x")) true).
Proof.
  split.
  - apply (hexagonal_updateTask_finds_or_throws empty_db 99). reflexivity.
  - apply (hexagonal_updateTask_finds_or_throws one_row 1). by eexists.
Defined.

(** X13: [complete()] works once: on a task that is not completed it sets
    [completed] and nothing else; on a completed task - the result of an
    earlier call included - it throws "Task is already completed". *)
Theorem complete_only_once (t : Hexagonal.Task) :
  (Hexagonal.completed t = false →
   Hexagonal.complete t
   = Hexagonal.Returns
       (Hexagonal.mkTask (Hexagonal.id t) (Hexagonal.title t) true))
  ∧ (Hexagonal.completed t = true →
     Hexagonal.complete t
     = Hexagonal.Throws Hexagonal.IllegalStateException_AlreadyCompleted)
  ∧ (∀ t', Hexagonal.complete t = Hexagonal.Returns t' →
           Hexagonal.completed t = false
           ∧ Hexagonal.completed t' = true
           ∧ Hexagonal.id t' = Hexagonal.id t
           ∧ Hexagonal.title t' = Hexagonal.title t
           ∧ Hexagonal.complete t'
             = Hexagonal.Throws
                 Hexagonal.IllegalStateException_AlreadyCompleted).
Proof.
  unfold Hexagonal.complete. destruct (Hexagonal.completed t) eqn:E.
  - split; [done|]. split; [done|]. by intros t'.
  - split; [done|]. split; [done|]. by intros t' [= <-].
Qed.

Lemma complete_only_once_witness :
  Hexagonal.complete (Hexagonal.mkTask (Some 1) (Some (utf16 "x")) false)
  = Hexagonal.Returns (Hexagonal.mkTask (Some 1) (Some (utf16 "x")) true)
  ∧ Hexagonal.complete (Hexagonal.mkTask (Some 1) (Some (utf16 "x")) true)
    = Hexagonal.Throws Hexagonal.IllegalStateException_AlreadyCompleted.
Proof.
  destruct (complete_only_once
              (Hexagonal.mkTask (Some 1) (Some (utf16 "x")) false))
    as (Hfirst & _ & Hagain).
  split; [by apply Hfirst|].
  by apply (Hagain (Hexagonal.mkTask (Some 1) (Some (utf16 "x")) true)).
Defined.

(** The adapter's two mappings undo each other. *)
Lemma toDomain_toEntity (t : Hexagonal.Task) :
  Hexagonal.TaskPersistenceAdapter.toDomain
    (Hexagonal.TaskPersistenceAdapter.toEntity t) = t.
Proof. by destruct t. Qed.

Lemma toEntity_toDomain (e : Task) :
  Hexagonal.TaskPersistenceAdapter.toEntity
    (Hexagonal.TaskPersistenceAdapter.toDomain e) = e.
Proof. by destruct e. Qed.

(** ** The form and the service *)

(** X14: the form of the client and the services do not test the same
    thing.  A title made of U+3000 (the full-width space) is stopped by the
    form although a service would store it; a non-empty title made of
    control characters that are no JavaScript whitespace passes the form and
    is refused by a service. *)
Theorem form_and_service_disagree (s : list N) :
  s ≠ [] →
  (Forall (λ c, c = 12288%N) s →
   (Client.TaskForm.handleSubmit s).1 = None
   ∧ ¬ Java.refused (Some s))
  ∧ (Forall (λ c, (c < 9)%N ∨ (14 ≤ c < 32)%N) s →
     (Client.TaskForm.handleSubmit s).1
     = Some {[ "title" := Js.Str s; "completed" := Js.Bool false ]}
     ∧ Java.refused (Some s)).
Proof.
  intros Hne. destruct s as [|c s]; [done|]. split.
  - intros Hall.
    assert (Js.blank (c :: s)) as Hb.
    { unfold Js.blank. eapply Forall_impl; [exact Hall|].
      by intros x ->. }
    split.
    + apply not_string_trim in Hb.
      unfold Client.TaskForm.handleSubmit. by rewrite Hb.
    + simpl. unfold Java.blank. inversion 1 as [|? ? Hc _]; subst.
      apply Forall_cons_1 in Hall as [-> _]. done.
  - intros Hall. split.
    + assert (¬ Js.blank (c :: s)) as Hnb.
      { unfold Js.blank. inversion 1 as [|? ? Hc _]; subst.
        apply Forall_cons_1 in Hall as [Hr _].
        unfold Js.is_space in Hc.
        apply orb_true_iff in Hc as [Hc|Hc].
        - apply bool_decide_eq_true in Hc.
          repeat (apply elem_of_cons in Hc as [->|Hc]; [lia|]).
          by apply elem_of_nil in Hc.
        - apply andb_true_iff in Hc as [Hc _].
          apply N.leb_le in Hc. lia. }
      unfold Client.TaskForm.handleSubmit.
      destruct (Js.not_string (Js.trim (c :: s))) eqn:E; [|done].
      by apply not_string_trim in E.
    + simpl. unfold Java.blank. eapply Forall_impl; [exact Hall|].
      intros x Hx. simpl in Hx. unfold Java.is_space. apply N.leb_le. lia.
Qed.

Lemma form_and_service_disagree_witness :
  ((Client.TaskForm.handleSubmit [12288%N; 12288%N]).1 = None
   ∧ ¬ Java.refused (Some [12288%N; 12288%N]))
  ∧ Java.refused (Some [1%N]).
Proof.
  split.
  - apply (form_and_service_disagree [12288%N; 12288%N]); [done|].
    by repeat constructor.
  - apply (form_and_service_disagree [1%N]); [done|].
    repeat constructor.
Defined.

End ServiceLayers.

(** * More on the client *)

Section TaskClientRuns.

Import Js.
Import Client.
Import Client.App.
Import Sample.

Implicit Types (tasks current : list (gmap string value)).
Implicit Types (task t : gmap string value) (id : value).
Implicit Types (title : list N) (st : State).


(** ** Answers that arrive after the list has moved on *)

(** When a chain settles, it installs the list it computed from the render
    that issued it, whatever the list is by then. *)
Lemma settle_addTask st k tasks task res newTask :
  in_flight st !! k = Some (addTask tasks task) →
  parsed res = Some newTask →
  App.tasks (step st (Settle k (Some res))) = tasks ++ [newTask].
Proof.
  intros Hk Hp. simpl. rewrite Hk. simpl.
  change (settled (App.tasks st) (chain (addTask tasks task) (Some res))
          = tasks ++ [newTask]).
  rewrite addTask_chain, Hp. done.
Qed.

Lemma step_Submit st title :
  ¬ blank title →
  ∃ draft, step st (Submit title) = issue st (Some (addTask (tasks st) draft)).
Proof.
  intros Hnb. simpl. unfold TaskForm.handleSubmit.
  destruct (not_string (trim title)) eqn:E;
    [by apply not_string_trim in E|].
  by eexists.
Qed.

(** X16: two adds submitted before either is answered lose one task: both
    chains append to the list they were issued from, so once both answers
    are in, the list is the old one plus the task of the answer that came
    last - in either order of arrival, the task of the answer that came
    first is not in the list, although the server stored it. *)
Theorem two_adds_keep_the_last_answer st title1 title2 res1 res2 t1 t2 :
  in_flight st = [] →
  ¬ blank title1 → ¬ blank title2 →
  parsed res1 = Some t1 → parsed res2 = Some t2 →
  tasks (run st [Submit title1; Submit title2;
                 Settle 0 (Some res1); Settle 0 (Some res2)])
  = tasks st ++ [t2]
  ∧ tasks (run st [Submit title1; Submit title2;
                   Settle 1 (Some res2); Settle 0 (Some res1)])
    = tasks st ++ [t1].
Proof.
  intros Hnone Hb1 Hb2 Hp1 Hp2.
  unfold run. cbn [foldl].
  destruct (step_Submit st title1 Hb1) as [d1 ->].
  destruct (step_Submit (issue st (Some (addTask (tasks st) d1))) title2 Hb2)
    as [d2 ->].
  split.
  - apply (settle_addTask _ 0%nat (tasks st) d2 res2 t2); [|done].
    simpl. rewrite Hnone. done.
  - apply (settle_addTask _ 0%nat (tasks st) d1 res1 t1); [|done].
    simpl. rewrite Hnone. done.
Qed.

Lemma two_adds_keep_the_last_answer_witness :
  tasks (run initial
           [Submit (utf16 "a"); Submit (utf16 "b");
            Settle 0 (Some (ok_200 (persisted 1 "a" false)));
            Settle 0 (Some (ok_200 (persisted 2 "b" false)))])
  = [] ++ [persisted 2 "b" false]
  ∧ tasks (run initial
             [Submit (utf16 "a"); Submit (utf16 "b");
              Settle 1 (Some (ok_200 (persisted 2 "b" false)));
              Settle 0 (Some (ok_200 (persisted 1 "a" false)))])
    = [] ++ [persisted 1 "a" false].
Proof.
  apply (two_adds_keep_the_last_answer initial (utf16 "a") (utf16 "b")
           (ok_200 (persisted 1 "a" false))
           (ok_200 (persisted 2 "b" false))
           (persisted 1 "a" false) (persisted 2 "b" false));
    try reflexivity;
    inversion 1; discriminate.
Defined.

(** ** What a delete and a toggle leave alone *)

(** X17: when a delete is answered, the list is the one it was issued from
    without the entries of that [id]: every such entry is gone, duplicates
    included, and the others stay, in their order.  If no entry has the
    [id], the request is sent all the same and the answer installs the list
    unchanged. *)
Theorem deleteTask_answer tasks id res :
  ∃ next,
    chain (deleteTask tasks id) (Some res) = Fulfilled next
    ∧ (∀ t, t ∈ next ↔ t ∈ tasks ∧ t !! "id" ≠ Some id)
    ∧ next `sublist_of` tasks
    ∧ ((∀ t, t ∈ tasks → t !! "id" ≠ Some id) → next = tasks)
    ∧ request (deleteTask tasks id)
      = {| method := DELETE; path := Some id; body := None |}.
Proof.
  exists (filter (λ t, t !! "id" ≠ Some id) tasks).
  split; [apply deleteTask_chain|]. split; [|split; [|split; [|done]]].
  - intros t. rewrite list_elem_of_filter. tauto.
  - apply sublist_filter.
  - intros Hall. induction tasks as [|t tasks IH]; [done|].
    rewrite filter_cons_True by (apply Hall; left).
    f_equal. apply IH. intros t' Hin. apply Hall. by right.
Qed.

(** X18: a toggle or a delete issued while the list holds an entry without
    an [id] - a draft, or an error body a failed add left in the list -
    never takes that entry away: whatever the answer and whenever it
    arrives, if the entry is in the list just before the chain settles, it
    is in the list just after. *)
Theorem entry_without_id_stays st t ev p outcome :
  t ∈ tasks st → t !! "id" = None →
  (∃ n, ev = Change n ∨ ev = Click n) →
  p ∈ issued st ev →
  (∀ current, t ∈ current → t ∈ settled current (chain p outcome))
  ∧ (∀ st' k, in_flight st' !! k = Some p → t ∈ tasks st' →
              t ∈ tasks (step st' (Settle k outcome))).
Proof.
  intros Hin Hnoid (n & Hev) Hp.
  assert (∀ current, t ∈ current → t ∈ settled current (chain p outcome))
    as Hstays.
  { intros current Hcur. destruct Hev as [-> | ->].
    - rewrite (issued_issue st (Change n)
                 (TaskList.onChange (tasks st) n ≫= toggleTask (tasks st)))
        in Hp by done.
      destruct (TaskList.onChange (tasks st) n) as [id|]; simpl in Hp;
        [|by apply elem_of_nil in Hp].
      unfold toggleTask in Hp.
      destruct (find_by_id (tasks st) id) as [task|]; simpl in Hp;
        [|by apply elem_of_nil in Hp].
      apply list_elem_of_singleton in Hp as ->. simpl.
      destruct outcome as [res|]; simpl; [|done].
      unfold json. destruct (parsed res) as [updated|]; simpl; [|done].
      apply list_elem_of_fmap. exists t. split; [|done].
      unfold strict_eq. rewrite Hnoid. by rewrite bool_decide_eq_false_2.
    - rewrite (issued_issue st (Click n)
                 (deleteTask (tasks st) <$> TaskList.onClick (tasks st) n))
        in Hp by done.
      destruct (TaskList.onClick (tasks st) n) as [id|]; simpl in Hp;
        [|by apply elem_of_nil in Hp].
      apply list_elem_of_singleton in Hp as ->.
      rewrite deleteTask_chain. destruct outcome as [res|]; simpl; [|done].
      apply list_elem_of_filter. split; [|done]. by rewrite Hnoid. }
  split; [exact Hstays|].
  intros st' k Hk Hcur. simpl. rewrite Hk. simpl. by apply Hstays.
Qed.

Lemma entry_without_id_stays_witness :
  spring_error
  ∈ tasks
      (step {| tasks := [spring_error; persisted 1 "a" false;
                         persisted 2 "b" false];
               in_flight :=
                 [deleteTask [spring_error; persisted 1 "a" false]
                    (Number 1)] |}
         (Settle 0 (Some (ok_200 ∅)))).
Proof.
  destruct (entry_without_id_stays
              {| tasks := [spring_error; persisted 1 "a" false];
                 in_flight := [] |}
              spring_error (Click 1%nat)
              (deleteTask [spring_error; persisted 1 "a" false] (Number 1))
              (Some (ok_200 ∅))) as [_ Hstep].
  - left.
  - reflexivity.
  - exists 1%nat. by right.
  - left.
  - apply (Hstep
             {| tasks := [spring_error; persisted 1 "a" false;
                          persisted 2 "b" false];
                in_flight :=
                  [deleteTask [spring_error; persisted 1 "a" false]
                     (Number 1)] |} 0%nat); [reflexivity | left].
Defined.

(** ** Toggling back *)

(** [map] with the replacement of [toggleTask]. *)
Lemma find_by_id_replaced tasks id task updated :
  find_by_id tasks id = Some task →
  updated !! "id" = Some id →
  find_by_id ((λ t, if strict_eq (t !! "id") id then updated else t)
                <$> tasks) id
  = Some updated.
Proof.
  intros Hfind Hid. unfold find_by_id in *.
  destruct (list_find _ tasks) as [[n t]|] eqn:E; simplify_eq/=.
  apply list_find_Some in E as (Hn & Heq & Hlt).
  assert (list_find (λ t, strict_eq (t !! "id") id = true)
            ((λ t, if strict_eq (t !! "id") id then updated else t)
               <$> tasks)
          = Some (n, updated)) as ->; [|done].
  apply list_find_Some. split; [|split].
  - by rewrite list_lookup_fmap, Hn; simpl; rewrite Heq.
  - unfold strict_eq. by apply bool_decide_eq_true.
  - intros j y Hj Hjn.
    apply list_lookup_fmap_Some in Hj as (x & -> & Hx).
    pose proof (Hlt j x Hx Hjn) as Hnot.
    destruct (strict_eq (x !! "id") id) eqn:Ex; [done|]. by rewrite Ex.
Qed.

(** X19: toggling twice gives the list back.  With a server that answers
    each PUT with the body it received (what the resource does for a stored
    task), and a list in which the [id] names one task, the second toggle
    sends the task as it was at first, and its answer restores the list. *)
Theorem toggle_twice_restores tasks id task c res1 res2 :
  find_by_id tasks id = Some task →
  (∀ t, t ∈ tasks → t !! "id" = Some id → t = task) →
  task !! "completed" = Some (Bool c) →
  (∀ p b, toggleTask tasks id = Some p → body (request p) = Some b →
          parsed res1 = Some b) →
  parsed res2 = Some task →
  ∃ p1 next1 p2,
    toggleTask tasks id = Some p1
    ∧ chain p1 (Some res1) = Fulfilled next1
    ∧ toggleTask next1 id = Some p2
    ∧ body (request p2) = Some task
    ∧ chain p2 (Some res2) = Fulfilled tasks.
Proof.
  intros Hfind Huniq Hc Hecho Hp2.
  destruct (find_by_id_Some _ _ _ Hfind) as [Hin Hid].
  set (b1 := <["completed" := Bool (negb c)]> task).
  assert (b1 !! "id" = Some id) as Hid1
    by (subst b1; by rewrite lookup_insert_ne).
  assert (toggleTask tasks id = Some
            {| request := {| method := PUT; path := Some id;
                             body := Some b1 |};
               chain := λ outcome,
                 fetch outcome .then (λ res, json res)
                   .then (λ updatedTask,
                            Fulfilled
                              ((λ t, if strict_eq (t !! "id") id
                                     then updatedTask else t) <$> tasks)) |})
    as Ht1.
  { unfold toggleTask. rewrite Hfind, Hc. done. }
  specialize (Hecho _ b1 Ht1 eq_refl).
  set (next1 := (λ t, if strict_eq (t !! "id") id then b1 else t) <$> tasks).
  assert (find_by_id next1 id = Some b1) as Hfind1
    by (by apply find_by_id_replaced with task).
  assert (<["completed" := Bool (negb (truthy (b1 !! "completed")))]> b1
          = task) as Hb2.
  { subst b1. rewrite lookup_insert_eq. simpl. rewrite negb_involutive.
    rewrite insert_insert_eq. by apply insert_id. }
  eexists _, next1, _. split; [exact Ht1|]. split.
  { simpl. unfold json. by rewrite Hecho. }
  split.
  { unfold toggleTask. rewrite Hfind1, Hb2. done. }
  split; [done|].
  simpl. unfold json. rewrite Hp2. simpl. f_equal.
  subst next1. rewrite <- list_fmap_compose.
  rewrite <- (list_fmap_id tasks) at 2.
  apply list_fmap_ext. intros n t Hn. simpl.
  destruct (strict_eq (t !! "id") id) eqn:E.
  - unfold strict_eq. rewrite Hid1, bool_decide_eq_true_2 by done.
    symmetry. apply Huniq; [by eapply list_elem_of_lookup_2|].
    unfold strict_eq in E. by apply bool_decide_eq_true in E.
  - by rewrite E.
Qed.

Lemma toggle_twice_restores_witness :
  ∃ p1 next1 p2,
    toggleTask [persisted 1 "a" false; persisted 2 "b" false] (Number 2)
    = Some p1
    ∧ chain p1 (Some (ok_200 (persisted 2 "b" true))) = Fulfilled next1
    ∧ toggleTask next1 (Number 2) = Some p2
    ∧ body (request p2) = Some (persisted 2 "b" false)
    ∧ chain p2 (Some (ok_200 (persisted 2 "b" false)))
      = Fulfilled [persisted 1 "a" false; persisted 2 "b" false].
Proof.
  apply (toggle_twice_restores
           [persisted 1 "a" false; persisted 2 "b" false] (Number 2)
           (persisted 2 "b" false) false
           (ok_200 (persisted 2 "b" true)) (ok_200 (persisted 2 "b" false))).
  - reflexivity.
  - intros t Hin Hid.
    apply elem_of_cons in Hin as [->|Hin]; [discriminate Hid|].
    by apply list_elem_of_singleton in Hin.
  - reflexivity.
  - intros p b Hp Hb. vm_compute in Hp. injection Hp as <-.
    vm_compute in Hb. injection Hb as <-. reflexivity.
  - reflexivity.
Defined.

End TaskClientRuns.

(** * The guide's client variants *)

Section GuideClients.

Import Js.
Import Client.
Import Sample.

Implicit Types (tasks : list (gmap string value)).
Implicit Types (task t payload : gmap string value) (id : value).

(** ** [useTasks] *)

Implicit Types (st : Hooks.State) (native_message : Rejection → string).

Lemma create_Resolves outcome data :
  Hooks.taskService.create outcome = Hooks.Resolves data →
  ∃ res, outcome = Some res ∧ ok res = true ∧ parsed res = Some data.
Proof.
  unfold Hooks.taskService.create. destruct outcome as [res|]; simpl; [|done].
  destruct (ok res) eqn:E; simpl; [|done].
  unfold json. destruct (parsed res) eqn:Ep; [|done].
  intros [= <-]. eauto.
Qed.

(** X20: [useTasks.addTask] does what the spec asks of an add: unless the
    request went through, the list is left as it is, a message is put in
    [error], and the handler rejects; a response with an error status gives
    the message "Failed to create task", whatever its body.  When the
    request went through, the returned task is appended and [error] is left
    as it is. *)
Theorem hook_addTask_reports_failure native_message tasks task outcome st :
  let after :=
    Hooks.resume (Hooks.addTask native_message tasks task) outcome st in
  (¬ Hooks.went_through outcome →
   Hooks.tasks after.1 = Hooks.tasks st
   ∧ is_Some (Hooks.error after.1)
   ∧ ∃ err, after.2 = Hooks.Rejects err)
  ∧ (∀ res, outcome = Some res → ok res = false →
            Hooks.error after.1 = Some "Failed to create task"
            ∧ Hooks.tasks after.1 = Hooks.tasks st)
  ∧ (∀ res data, outcome = Some res → ok res = true → parsed res = Some data →
                 Hooks.tasks after.1 = tasks ++ [data]
                 ∧ Hooks.error after.1 = Hooks.error st
                 ∧ after.2 = Hooks.Resolves tt).
Proof.
  simpl. split; [|split].
  - intros Hnot.
    destruct (Hooks.taskService.create outcome) as [data|err] eqn:E; simpl.
    + destruct Hnot. apply create_Resolves in E as (res & ? & ? & ?).
      by exists res, data.
    + split; [done|]. split; [by eexists | by eexists].
  - intros res -> Hok. unfold Hooks.taskService.create. simpl.
    by rewrite Hok.
  - intros res data -> Hok Hp. unfold Hooks.taskService.create. simpl.
    unfold json. by rewrite Hok, Hp.
Qed.

Lemma hook_addTask_reports_failure_witness :
  Hooks.tasks
    (Hooks.resume (Hooks.addTask (λ _, "Failed to fetch") [] buy_milk)
       (Some error_500) (Hooks.mkState [] false None)).1 = []
  ∧ Hooks.error
      (Hooks.resume (Hooks.addTask (λ _, "Failed to fetch") [] buy_milk)
         (Some error_500) (Hooks.mkState [] false None)).1
    = Some "Failed to create task".
Proof.
  destruct (hook_addTask_reports_failure (λ _, "Failed to fetch") []
              buy_milk (Some error_500) (Hooks.mkState [] false None))
    as (_ & H & _).
  destruct (H error_500 eq_refl eq_refl) as [He Ht]. by split.
Defined.

(** X21: [useTasks.deleteTask] removes the entry only when the DELETE was
    answered with an ok status; after any other outcome the list is as it
    was and [error] holds a message - "Failed to delete task" for an error
    status. *)
Theorem hook_deleteTask_needs_ok native_message tasks id outcome st :
  let after :=
    (Hooks.resume (Hooks.deleteTask native_message tasks id) outcome st).1 in
  (∀ res, outcome = Some res → ok res = true →
          Hooks.tasks after = filter (λ t, t !! "id" ≠ Some id) tasks
          ∧ Hooks.error after = Hooks.error st)
  ∧ (∀ res, outcome = Some res → ok res = false →
            Hooks.tasks after = Hooks.tasks st
            ∧ Hooks.error after = Some "Failed to delete task")
  ∧ (outcome = None →
     Hooks.tasks after = Hooks.tasks st
     ∧ Hooks.error after = Some (native_message TypeError)).
Proof.
  simpl. unfold Hooks.taskService.delete. split; [|split].
  - intros res -> Hok. simpl. rewrite Hok. simpl.
    by rewrite filter_other_ids.
  - intros res -> Hok. simpl. by rewrite Hok.
  - by intros ->.
Qed.

Lemma hook_deleteTask_needs_ok_witness :
  Hooks.tasks
    (Hooks.resume
       (Hooks.deleteTask (λ _, "Failed to fetch")
          [persisted 1 "a" false] (Number 1))
       (Some error_500)
       (Hooks.mkState [persisted 1 "a" false] false None)).1
  = [persisted 1 "a" false].
Proof.
  destruct (hook_deleteTask_needs_ok (λ _, "Failed to fetch")
              [persisted 1 "a" false] (Number 1) (Some error_500)
              (Hooks.mkState [persisted 1 "a" false] false None))
    as (_ & H & _).
  apply (H error_500); reflexivity.
Defined.

(** X22: in [useTasks] an error is never cleared by an add, a toggle or a
    delete: once [error] holds a message, it holds one after every such
    action, successful or not, and [loading] is not touched.  As
    [TaskPageContainer] shows the error instead of the page while [error] is
    set, a successful action after a failure updates a list that is not on
    screen. *)
Theorem hook_error_is_never_cleared native_message tasks st after :
  Hooks.settled_from native_message tasks st after →
  Hooks.loading after = Hooks.loading st
  ∧ (Hooks.error after = Hooks.error st ∨ is_Some (Hooks.error after))
  ∧ (is_Some (Hooks.error st) → is_Some (Hooks.error after))
  ∧ (∀ message, Hooks.view st = Hooks.ErrorScreen message →
                Hooks.error after = Hooks.error st →
                Hooks.view after = Hooks.ErrorScreen message).
Proof.
  intros Hs.
  assert (Hooks.loading after = Hooks.loading st
          ∧ (Hooks.error after = Hooks.error st
             ∨ is_Some (Hooks.error after))) as [Hl He].
  { destruct Hs as [(task & outcome & ->)
                   |[(id & call & outcome & Hcall & ->)
                    |(id & outcome & ->)]].
    - simpl. destruct (Hooks.taskService.create outcome); simpl;
        (split; [done|]); [by left | by right].
    - unfold Hooks.toggleTask in Hcall.
      destruct (App.find_by_id tasks id); [|done].
      injection Hcall as <-. simpl.
      destruct (Hooks.taskService.update outcome); simpl;
        (split; [done|]); [by left | by right].
    - simpl. destruct (Hooks.taskService.delete outcome); simpl;
        (split; [done|]); [by left | by right]. }
  split; [done|]. split; [done|]. split.
  - intros Hsome. destruct He as [->|]; done.
  - intros message Hview Hsame. unfold Hooks.view in *.
    rewrite Hl, Hsame. destruct (Hooks.loading st); [done|].
    destruct (Hooks.error st) as [m|]; [|done].
    by destruct (bool_decide (m = "")).
Qed.

Lemma hook_error_is_never_cleared_witness :
  let failed := Hooks.mkState [] false (Some "Failed to create task") in
  let after :=
    (Hooks.resume (Hooks.addTask (λ _, "Failed to fetch") [] buy_milk)
       (Some (ok_200 (persisted 1 "buy milk" false))) failed).1 in
  Hooks.tasks after = [persisted 1 "buy milk" false]
  ∧ Hooks.view after = Hooks.ErrorScreen "Failed to create task".
Proof.
  intros failed after. split; [reflexivity|].
  apply (hook_error_is_never_cleared (λ _, "Failed to fetch") [] failed after).
  - left. by exists buy_milk, (Some (ok_200 (persisted 1 "buy milk" false))).
  - reflexivity.
  - reflexivity.
Defined.

(** X25: [useTasks.toggleTask] issues no request for an [id] no entry has.
    For an [id] that is in the list it issues one PUT to that [id] with the
    entry found, [completed] negated; any outcome other than an ok response
    with a JSON body then leaves the list as it is and puts a message in
    [error] - "Failed to update task" for an error status - and the handler
    itself never rejects. *)
Theorem hook_toggleTask_reports_failure native_message tasks id :
  ((∀ t, t ∈ tasks → t !! "id" ≠ Some id) →
   Hooks.toggleTask native_message tasks id = None)
  ∧ ((∃ t, t ∈ tasks ∧ t !! "id" = Some id) →
     ∃ task call,
       App.find_by_id tasks id = Some task
       ∧ task ∈ tasks ∧ task !! "id" = Some id
       ∧ Hooks.toggleTask native_message tasks id = Some call
       ∧ Hooks.request call
         = {| method := PUT; path := Some id;
              body := Some (<["completed" :=
                               Bool (negb (truthy (task !! "completed")))]>
                              task) |}
       ∧ ∀ outcome st,
           (Hooks.resume call outcome st).2 = Hooks.Resolves tt
           ∧ (¬ Hooks.went_through outcome →
              Hooks.tasks (Hooks.resume call outcome st).1 = Hooks.tasks st
              ∧ is_Some (Hooks.error (Hooks.resume call outcome st).1))
           ∧ (∀ res, outcome = Some res → ok res = false →
                     Hooks.tasks (Hooks.resume call outcome st).1
                     = Hooks.tasks st
                     ∧ Hooks.error (Hooks.resume call outcome st).1
                       = Some "Failed to update task")).
Proof.
  split.
  - intros Habs. apply find_by_id_None in Habs.
    unfold Hooks.toggleTask. by rewrite Habs.
  - intros Hex. destruct (find_by_id_present _ _ Hex) as [task Hfind].
    destruct (find_by_id_Some _ _ _ Hfind) as [Hin Hid].
    unfold Hooks.toggleTask. rewrite Hfind.
    eexists task, _. split; [done|]. split; [done|]. split; [done|].
    split; [done|]. split; [done|].
    intros outcome st. simpl.
    split; [by destruct (Hooks.taskService.update outcome)|]. split.
    + intros Hnot. unfold Hooks.taskService.update.
      destruct outcome as [res|]; simpl; [|by split].
      destruct (ok res) eqn:Hok; simpl; [|by split].
      unfold json. destruct (parsed res) as [data|] eqn:Hp; simpl;
        [|by split].
      destruct Hnot. by exists res, data.
    + intros res -> Hok. unfold Hooks.taskService.update. simpl.
      by rewrite Hok.
Qed.

Lemma hook_toggleTask_reports_failure_witness :
  Hooks.toggleTask (λ _, "Failed to fetch") [persisted 1 "a" false] (Number 2)
  = None
  ∧ ∃ call,
      Hooks.toggleTask (λ _, "Failed to fetch") [persisted 1 "a" false]
        (Number 1) = Some call
      ∧ Hooks.request call
        = {| method := PUT; path := Some (Number 1);
             body := Some (persisted 1 "a" true) |}
      ∧ Hooks.tasks
          (Hooks.resume call (Some error_500)
             (Hooks.mkState [persisted 1 "a" false] false None)).1
        = [persisted 1 "a" false]
      ∧ Hooks.error
          (Hooks.resume call (Some error_500)
             (Hooks.mkState [persisted 1 "a" false] false None)).1
        = Some "Failed to update task".
Proof.
  split.
  - apply (hook_toggleTask_reports_failure (λ _, "Failed to fetch")
             [persisted 1 "a" false] (Number 2)).
    intros t Hin. apply list_elem_of_singleton in Hin as ->. discriminate.
  - destruct (hook_toggleTask_reports_failure (λ _, "Failed to fetch")
                [persisted 1 "a" false] (Number 1)) as [_ Hpresent].
    destruct Hpresent
      as (task & call & Hfind & _ & _ & Hcall & Hreq & Hfail).
    { exists (persisted 1 "a" false). split; [left | reflexivity]. }
    injection Hfind as <-.
    exists call. split; [exact Hcall|]. split; [exact Hreq|].
    destruct (Hfail (Some error_500)
                (Hooks.mkState [persisted 1 "a" false] false None))
      as (_ & _ & Hstatus).
    destruct (Hstatus error_500 eq_refl eq_refl) as [Ht He]. by split.
Defined.

(** X26: when a request went through, the handlers of [useTasks] install the
    list the handlers of the deployed [App] install, and send the same
    request - a toggle included: [useTasks.toggleTask] issues a request
    exactly when [App.toggleTask] does.  The two differ on failures only. *)
Theorem hook_agrees_with_App native_message tasks outcome st :
  Hooks.went_through outcome →
  (∀ task,
     Hooks.request (Hooks.addTask native_message tasks task)
     = request (App.addTask tasks task)
     ∧ Fulfilled
         (Hooks.tasks
            (Hooks.resume (Hooks.addTask native_message tasks task)
               outcome st).1)
       = chain (App.addTask tasks task) outcome)
  ∧ (∀ id,
       (App.toggleTask tasks id = None →
        Hooks.toggleTask native_message tasks id = None)
       ∧ (∀ p, App.toggleTask tasks id = Some p →
               ∃ call,
                 Hooks.toggleTask native_message tasks id = Some call
                 ∧ Hooks.request call = request p
                 ∧ Fulfilled (Hooks.tasks (Hooks.resume call outcome st).1)
                   = chain p outcome))
  ∧ (∀ id,
       Hooks.request (Hooks.deleteTask native_message tasks id)
       = request (App.deleteTask tasks id)
       ∧ Fulfilled
           (Hooks.tasks
              (Hooks.resume (Hooks.deleteTask native_message tasks id)
                 outcome st).1)
         = chain (App.deleteTask tasks id) outcome).
Proof.
  intros (res & data & -> & Hok & Hp). split; [|split].
  - intros task. split; [done|]. simpl.
    unfold Hooks.taskService.create, json. simpl. by rewrite Hok, Hp.
  - intros id. unfold Hooks.toggleTask, App.toggleTask.
    destruct (App.find_by_id tasks id) as [task|]; (split; [done|]);
      [|done].
    intros p [= <-]. eexists. split; [done|]. split; [done|]. simpl.
    unfold Hooks.taskService.update, json. simpl. by rewrite Hok, Hp.
  - intros id. split; [done|]. simpl.
    unfold Hooks.taskService.delete. simpl. by rewrite Hok.
Qed.

Lemma hook_agrees_with_App_witness :
  Fulfilled
    (Hooks.tasks
       (Hooks.resume (Hooks.addTask (λ _, "Failed to fetch") [] buy_milk)
          (Some (ok_200 (persisted 1 "buy milk" false)))
          (Hooks.mkState [] false None)).1)
  = chain (App.addTask [] buy_milk)
      (Some (ok_200 (persisted 1 "buy milk" false)))
  ∧ ∃ p call,
      App.toggleTask [persisted 1 "a" false] (Number 1) = Some p
      ∧ Hooks.toggleTask (λ _, "Failed to fetch") [persisted 1 "a" false]
          (Number 1) = Some call
      ∧ Hooks.request call = request p
      ∧ Fulfilled
          (Hooks.tasks
             (Hooks.resume call (Some (ok_200 (persisted 1 "a" true)))
                (Hooks.mkState [persisted 1 "a" false] false None)).1)
        = chain p (Some (ok_200 (persisted 1 "a" true))).
Proof.
  split.
  - apply (hook_agrees_with_App (λ _, "Failed to fetch") []
             (Some (ok_200 (persisted 1 "buy milk" false)))
             (Hooks.mkState [] false None)).
    by exists (ok_200 (persisted 1 "buy milk" false)),
              (persisted 1 "buy milk" false).
  - destruct (hook_agrees_with_App (λ _, "Failed to fetch")
                [persisted 1 "a" false]
                (Some (ok_200 (persisted 1 "a" true)))
                (Hooks.mkState [persisted 1 "a" false] false None))
      as (_ & Htoggle & _).
    { by exists (ok_200 (persisted 1 "a" true)), (persisted 1 "a" true). }
    destruct (App.toggleTask [persisted 1 "a" false] (Number 1))
      as [p|] eqn:Happ; [|discriminate Happ].
    destruct (Htoggle (Number 1)) as [_ Hsome].
    destruct (Hsome p Happ) as (call & Hcall & Hreq & Hlist).
    by exists p, call.
Defined.

(** ** The reducers of [taskSlice] *)

Implicit Types (state : TaskSlice.TaskState).

Lemma findIndex_Some l payload n :
  TaskSlice.findIndex l payload = Some n ↔
  ∃ t, l !! n = Some t ∧ t !! "id" = payload !! "id"
       ∧ ∀ j y, l !! j = Some y → (j < n)%nat → y !! "id" ≠ payload !! "id".
Proof.
  unfold TaskSlice.findIndex. split.
  - intros H. destruct (list_find _ l) as [[k t]|] eqn:E; simplify_eq/=.
    apply list_find_Some in E. by exists t.
  - intros (t & Hn & Hid & Hlt).
    assert (list_find (λ t, t !! "id" = payload !! "id") l = Some (n, t))
      as -> by (by apply list_find_Some).
    done.
Qed.

Lemma findIndex_None l payload :
  TaskSlice.findIndex l payload = None ↔
  ∀ t, t ∈ l → t !! "id" ≠ payload !! "id".
Proof.
  unfold TaskSlice.findIndex. split.
  - intros H. destruct (list_find _ l) as [[k t]|] eqn:E; [done|].
    apply list_find_None in E. by apply Forall_forall.
  - intros H. destruct (list_find _ l) as [[k t]|] eqn:E; [|done].
    apply list_find_Some in E as (Hk & Hid & _).
    destruct (H t); [by eapply list_elem_of_lookup_2 | done].
Qed.

(** X23: the reducer [updateTask] replaces the first entry that has the
    [id] of the payload, and that one only: the list keeps its length, every
    other position keeps its entry - later entries with the same [id]
    included - and [loading] and [error] are not touched.  When no entry has
    that [id], the state is left as it is: an update never adds a task. *)
Theorem slice_updateTask_first_match state payload :
  length (TaskSlice.tasks (TaskSlice.updateTask state payload))
  = length (TaskSlice.tasks state)
  ∧ TaskSlice.loading (TaskSlice.updateTask state payload)
    = TaskSlice.loading state
  ∧ TaskSlice.error (TaskSlice.updateTask state payload)
    = TaskSlice.error state
  ∧ ((∀ t, t ∈ TaskSlice.tasks state → t !! "id" ≠ payload !! "id") →
     TaskSlice.updateTask state payload = state)
  ∧ (∀ n t,
       TaskSlice.tasks state !! n = Some t →
       t !! "id" = payload !! "id" →
       (∀ j y, TaskSlice.tasks state !! j = Some y → (j < n)%nat →
               y !! "id" ≠ payload !! "id") →
       TaskSlice.tasks (TaskSlice.updateTask state payload) !! n
       = Some payload
       ∧ ∀ j, j ≠ n →
              TaskSlice.tasks (TaskSlice.updateTask state payload) !! j
              = TaskSlice.tasks state !! j).
Proof.
  unfold TaskSlice.updateTask.
  destruct (TaskSlice.findIndex (TaskSlice.tasks state) payload)
    as [index|] eqn:E; simpl.
  - split; [apply length_insert|]. split; [done|]. split; [done|].
    apply findIndex_Some in E as (t0 & Hidx & Hid0 & Hlt0). split.
    + intros Hnone. destruct (Hnone t0); [|done].
      by eapply list_elem_of_lookup_2.
    + intros n t Hn Hid Hlt.
      assert (n = index) as ->.
      { destruct (Nat.lt_total n index) as [Hlt'|[->|Hgt]]; [|done|].
        - by destruct (Hlt0 n t Hn Hlt').
        - by destruct (Hlt index t0 Hidx Hgt). }
      split.
      * apply list_lookup_insert_eq. by eapply lookup_lt_Some.
      * intros j Hj. by apply list_lookup_insert_ne.
  - split; [done|]. split; [done|]. split; [done|]. split; [done|].
    intros n t Hn Hid _.
    pose proof (proj1 (findIndex_None _ _) E) as Hnone.
    destruct (Hnone t); [by eapply list_elem_of_lookup_2 | done].
Qed.

Lemma slice_updateTask_first_match_witness :
  TaskSlice.tasks
    (TaskSlice.updateTask
       (TaskSlice.mkTaskState
          [persisted 1 "a" false; persisted 2 "b" false;
           persisted 2 "c" false] false None)
       (persisted 2 "b" true))
  !! 1%nat = Some (persisted 2 "b" true)
  ∧ TaskSlice.updateTask TaskSlice.initialState (persisted 2 "b" true)
    = TaskSlice.initialState.
Proof.
  destruct (slice_updateTask_first_match
              (TaskSlice.mkTaskState
                 [persisted 1 "a" false; persisted 2 "b" false;
                  persisted 2 "c" false] false None)
              (persisted 2 "b" true)) as (_ & _ & _ & _ & Hfirst).
  destruct (slice_updateTask_first_match TaskSlice.initialState
              (persisted 2 "b" true)) as (_ & _ & _ & Hnone & _).
  split.
  - apply (Hfirst 1%nat (persisted 2 "b" false)); [reflexivity..|].
    intros j y Hj Hlt. assert (j = 0%nat) as -> by lia.
    injection Hj as <-. discriminate.
  - apply Hnone. intros t Hin. by apply elem_of_nil in Hin.
Defined.

(** X24: the reducers [addTask] and [deleteTask] undo each other: adding a
    task whose [id] no entry has and deleting that [id] gives the state back;
    deleting an [id] removes every entry that has it, and deleting it again
    changes nothing. *)
Theorem slice_addTask_deleteTask state payload id :
  (payload !! "id" = Some id →
   (∀ t, t ∈ TaskSlice.tasks state → t !! "id" ≠ Some id) →
   TaskSlice.deleteTask (TaskSlice.addTask state payload) id = state)
  ∧ (∀ t, t ∈ TaskSlice.tasks (TaskSlice.deleteTask state id) →
          t !! "id" ≠ Some id)
  ∧ TaskSlice.deleteTask (TaskSlice.deleteTask state id) id
    = TaskSlice.deleteTask state id.
Proof.
  destruct state as [l ld er]. unfold TaskSlice.deleteTask, TaskSlice.addTask.
  simpl. split; [|split].
  - intros Hid Hnone. f_equal. rewrite filter_app.
    rewrite filter_cons_False by (by intros H; apply H).
    rewrite filter_nil, app_nil_r.
    induction l as [|t l IH]; [done|].
    rewrite filter_cons_True by (apply Hnone; left).
    f_equal. apply IH. intros t' Hin. apply Hnone. by right.
  - intros t Hin. by apply list_elem_of_filter in Hin as [? _].
  - f_equal. rewrite list_filter_filter. apply list_filter_iff. tauto.
Qed.

Lemma slice_addTask_deleteTask_witness :
  TaskSlice.deleteTask
    (TaskSlice.addTask
       (TaskSlice.mkTaskState [persisted 1 "a" false] false None)
       (persisted 2 "b" false))
    (Number 2)
  = TaskSlice.mkTaskState [persisted 1 "a" false] false None.
Proof.
  destruct (slice_addTask_deleteTask
              (TaskSlice.mkTaskState [persisted 1 "a" false] false None)
              (persisted 2 "b" false) (Number 2)) as (Hback & _).
  apply Hback.
  - reflexivity.
  - intros t Hin. apply list_elem_of_singleton in Hin as ->. discriminate.
Defined.

End GuideClients.
